(** * SCM history graph: view model, Git history provider, load-more sequencing

    A shallow embedding of
    - [SCMHistoryViewModel] (the per-repository pagination cache of the
      source-control history view and its colour map),
    - [GitHistoryProvider] (the adapter from the repository log to history
      items), and
    - [SCMHistoryViewPane._loadMoreCallback] (the load-more continuation),
    - the rest of the Git history provider (current history item group,
      changes and decorations) and of the history tree (data source,
      identity, opening a row, the action "View Changes"),
    followed by the properties of the written specification and by further
    properties of the sources.

    Promises are modelled by their settlement ([Resolved] or [Rejected]);
    an [async] function that awaits an external call is split at the await
    into the part that runs before it and the part that runs after it. *)

From Stdlib Require Import ZArith Lia.
From stdpp Require Import base option list strings gmap.

(** ** Promises *)

(** The settlement of a promise. *)
Inductive Settled (A : Type) : Type :=
| Resolved (value : A)
| Rejected (err : string).
Arguments Resolved {A} value.
Arguments Rejected {A} err.

(** ** Data model (common/history.ts, as used by the sources) *)

Definition ColorIdentifier : Type := string.

Record ISCMHistoryItemStatistics : Type := {
  files : Z;
  insertions : Z;
  deletions : Z
}.

Record ISCMHistoryItemLabel : Type := {
  label_title : string;
  label_icon : option string
}.

Record ISCMHistoryItem : Type := {
  item_id : string;
  item_parentIds : list string;
  item_message : string;
  item_author : option string;
  item_icon : option string;
  item_displayId : option string;
  item_timestamp : option Z;
  item_statistics : option ISCMHistoryItemStatistics;
  item_labels : option (list ISCMHistoryItemLabel)
}.

(** The remote and the base of a history item group: a group without
    counterparts of its own. *)
Record ISCMHistoryItemGroupRef : Type := {
  ref_id : string;
  ref_name : string;
  ref_revision : option string
}.

Record ISCMHistoryItemGroup : Type := {
  group_id : string;
  group_name : string;
  group_revision : option string;
  group_remote : option ISCMHistoryItemGroupRef;
  group_base : option ISCMHistoryItemGroupRef
}.

(** [limit] of the history options: a number or an object with an optional id. *)
Inductive HistoryLimit : Type :=
| LimitNumber (n : Z)
| LimitItem (id : option string).

Record ISCMHistoryOptions : Type := {
  historyItemGroupIds : option (list string);
  limit : option HistoryLimit;
  skip : option Z
}.

Record ISCMHistoryItemGraphNode : Type := {
  node_id : string;
  node_color : ColorIdentifier
}.

Record ISCMHistoryItemViewModel : Type := {
  historyItem : ISCMHistoryItem;
  inputSwimlanes : list ISCMHistoryItemGraphNode;
  outputSwimlanes : list ISCMHistoryItemGraphNode
}.

(** ** JavaScript containers *)

(** A JS [Map<string, V>]: entries in insertion order; [set] on a key that is
    present replaces its value in place, otherwise appends an entry. *)
Abbreviation JSMap V := (list (string * V)%type) (only parsing).

Fixpoint Map_set {V} (key : string) (value : V) (m : JSMap V) : JSMap V :=
  match m with
  | [] => [(key, value)]
  | (k, v) :: m' =>
      if decide (k = key) then (key, value) :: m'
      else (k, v) :: Map_set key value m'
  end.

Fixpoint Map_get {V} (key : string) (m : JSMap V) : option V :=
  match m with
  | [] => None
  | (k, v) :: m' => if decide (k = key) then Some v else Map_get key m'
  end.

(** [new Map(entries)] *)
Definition Map_new {V} (entries : list (string * V)) : JSMap V :=
  fold_left (fun m e => Map_set e.1 e.2 m) entries [].

(** The entries of the map stored under [key]. *)
Definition Map_entries_of {V} (key : string) (m : JSMap V) : list (string * V) :=
  filter (fun e => e.1 = key) m.

(** No key of the map has two entries. *)
Definition Map_wf {V} (m : JSMap V) : Prop :=
  ∀ key, length (Map_entries_of key m) ≤ 1.

(** A JS [Set<string>] in insertion order, and [Array.from(new Set(xs))]. *)
Definition Set_add (s : list string) (x : string) : list string :=
  if decide (x ∈ s) then s else s ++ [x].

Definition Set_new (xs : list string) : list string :=
  fold_left Set_add xs [].

Definition Array_from_Set (s : list string) : list string := s.

(** Modelled from the spec: [clamp] of base/common/numbers.ts, which is not
    part of the sources; the page size is "bounded to [1, 1000]". *)
Definition clamp (value min max : Z) : Z :=
  Z.min max (Z.max min value).

(** ** The history view model *)

Module SCMHistoryViewModel.

(** An [ISCMRepository] object; the cache is keyed by object identity. *)
Definition ISCMRepository : Type := nat.

Record ISCMHistoryProvider : Type := {
  provider_currentHistoryItemGroup : option ISCMHistoryItemGroup;
  provider_provideHistoryItems :
    ISCMHistoryOptions -> Settled (option (list ISCMHistoryItem))
}.

(** What the view model reads from its surroundings: the observable
    [repository], each repository's observable [provider.historyProvider],
    and the configuration value scm.graph.pageSize. *)
Record Host : Type := {
  repository : option ISCMRepository;
  historyProvider : ISCMRepository -> option ISCMHistoryProvider;
  pageSize : Z
}.

Record HistoryItemState : Type := {
  currentHistoryItemGroup : ISCMHistoryItemGroup;
  items : list ISCMHistoryItem;
  loadMore : bool
}.

Inductive HistoryItemGroupFilter : Type :=
| FilterAll
| FilterAuto
| FilterIds (ids : list string).

(** The fields of the view model the operations below read and write. *)
Record ViewModel : Type := {
  _historyItemGroupFilter : HistoryItemGroupFilter;
  _state : gmap ISCMRepository HistoryItemState
}.

Definition set_state (vm : ViewModel)
    (f : gmap ISCMRepository HistoryItemState -> gmap ISCMRepository HistoryItemState)
    : ViewModel :=
  {| _historyItemGroupFilter := _historyItemGroupFilter vm;
     _state := f (_state vm) |}.

(** The view model as its constructor leaves it. *)
Definition new_ViewModel : ViewModel :=
  {| _historyItemGroupFilter := FilterAuto; _state := ∅ |}.

Record SCMHistoryItemViewModelTreeElement : Type := {
  element_repository : ISCMRepository;
  historyItemViewModel : ISCMHistoryItemViewModel
}.

(** A provider call made by the view model. *)
Record ProviderCall : Type := {
  call_repository : ISCMRepository;
  call_options : ISCMHistoryOptions
}.

(** What scmHistory.ts exports to the view: the three colour identifiers and
    the graph computation. The module is not part of the sources; the colour
    identifiers are taken as they come, and of the graph computation only the
    swimlanes are left open: they may depend on the whole item list, on the
    colour map and on the position of the item. *)
Record ScmHistory : Type := {
  historyItemGroupLocal : ColorIdentifier;
  historyItemGroupRemote : ColorIdentifier;
  historyItemGroupBase : ColorIdentifier;
  swimlanes :
    list ISCMHistoryItem -> JSMap ColorIdentifier -> nat ->
    list ISCMHistoryItemGraphNode * list ISCMHistoryItemGraphNode
}.

Section ViewModel.

Context (scmHistory : ScmHistory).

(** Modelled from the spec: [toISCMHistoryItemViewModelArray] of
    scmHistory.ts, which is not part of the sources. A view model is "a
    HistoryItem plus rendering metadata (input/output swimlane positions for
    graph drawing, assigned colors)"; the output is the "full ordered list"
    of them, one per history item. *)
Definition toISCMHistoryItemViewModelArray
    (historyItems : list ISCMHistoryItem) (colorMap : JSMap ColorIdentifier)
    : list ISCMHistoryItemViewModel :=
  imap (fun index item =>
          {| historyItem := item;
             inputSwimlanes := (swimlanes scmHistory historyItems colorMap index).1;
             outputSwimlanes := (swimlanes scmHistory historyItems colorMap index).2 |})
       historyItems.

Definition clearRepositoryState (host : Host) (vm : ViewModel) : ViewModel :=
  match repository host with
  | None => vm
  | Some repo => set_state vm (delete repo)
  end.

Definition setLoadMore (repo : ISCMRepository) (flag : bool) (vm : ViewModel)
    : ViewModel :=
  match _state vm !! repo with
  | None => vm
  | Some state =>
      set_state vm
        (insert repo
           {| currentHistoryItemGroup := currentHistoryItemGroup state;
              items := items state;
              loadMore := flag |})
  end.

(** [repository?.provider.historyProvider.get()] and
    [historyProvider?.currentHistoryItemGroup.get()] *)
Definition activeProvider (host : Host) : option ISCMHistoryProvider :=
  match repository host with
  | Some repo => historyProvider host repo
  | None => None
  end.

Definition providerGroup (provider : option ISCMHistoryProvider)
    : option ISCMHistoryItemGroup :=
  match provider with
  | Some p => provider_currentHistoryItemGroup p
  | None => None
  end.

(** The derived observable [historyItemGroupFilter]. *)
Definition historyItemGroupFilter (host : Host) (vm : ViewModel) : list string :=
  match _historyItemGroupFilter vm with
  | FilterIds filter => filter
  | FilterAll => []
  | FilterAuto =>
      match providerGroup (activeProvider host) with
      | None => []
      | Some group =>
          [default (group_id group) (group_revision group)]
          ++ match group_remote group with
             | Some remote => [default (ref_id remote) (ref_revision remote)]
             | None => []
             end
          ++ match group_base group with
             | Some base => [default (ref_id base) (ref_revision base)]
             | None => []
             end
      end
  end.

Definition _getGraphColorMap (vm : ViewModel)
    (group : ISCMHistoryItemGroup) : JSMap ColorIdentifier :=
  let colorMap := Map_new [(group_name group, historyItemGroupLocal scmHistory)] in
  let colorMap :=
    match group_remote group with
    | Some remote => Map_set (ref_name remote) (historyItemGroupRemote scmHistory) colorMap
    | None => colorMap
    end in
  let colorMap :=
    match group_base group with
    | Some base => Map_set (ref_name base) (historyItemGroupBase scmHistory) colorMap
    | None => colorMap
    end in
  match _historyItemGroupFilter vm with
  | FilterAll => Map_set "*" EmptyString colorMap
  | _ => colorMap
  end.

(** The last statement of [getHistoryItems]: colour map, view models, tree
    elements. *)
Definition treeElements (vm : ViewModel) (repo : ISCMRepository)
    (group : ISCMHistoryItemGroup) (cached : list ISCMHistoryItem)
    : list SCMHistoryItemViewModelTreeElement :=
  let colorMap := _getGraphColorMap vm group in
  (fun viewModel =>
     {| element_repository := repo; historyItemViewModel := viewModel |})
  <$> toISCMHistoryItemViewModelArray cached colorMap.

(** [getHistoryItems] suspended at [await historyProvider.provideHistoryItems]:
    the locals that are live across the await, and the request. *)
Record Suspended : Type := {
  await_repository : ISCMRepository;
  await_historyProvider : ISCMHistoryProvider;
  await_currentHistoryItemGroup : ISCMHistoryItemGroup;
  await_existingHistoryItems : list ISCMHistoryItem;
  await_options : ISCMHistoryOptions
}.

(** The argument of [provideHistoryItems]. *)
Definition pageRequest (host : Host) (vm : ViewModel)
    (existingHistoryItems : list ISCMHistoryItem) : ISCMHistoryOptions :=
  {| historyItemGroupIds := Some (historyItemGroupFilter host vm);
     limit := Some (LimitNumber (clamp (pageSize host) 1 1000));
     skip := Some (Z.of_nat (length existingHistoryItems)) |}.

Definition suspend (host : Host) (vm : ViewModel) (repo : ISCMRepository)
    (provider : ISCMHistoryProvider) (group : ISCMHistoryItemGroup)
    (existingHistoryItems : list ISCMHistoryItem) : Suspended :=
  {| await_repository := repo;
     await_historyProvider := provider;
     await_currentHistoryItemGroup := group;
     await_existingHistoryItems := existingHistoryItems;
     await_options := pageRequest host vm existingHistoryItems |}.

(** [state?.currentHistoryItemGroup ?? historyProvider?.currentHistoryItemGroup.get()] *)
Definition resolveGroup (state : option HistoryItemState)
    (provider : option ISCMHistoryProvider) : option ISCMHistoryItemGroup :=
  match state with
  | Some st => Some (currentHistoryItemGroup st)
  | None => providerGroup provider
  end.

(** [getHistoryItems] up to its await: it either returns, or suspends. *)
Definition getHistoryItems_begin (host : Host) (vm : ViewModel)
    : list SCMHistoryItemViewModelTreeElement + Suspended :=
  match repository host with
  | None => inl []
  | Some repo =>
      let state := _state vm !! repo in
      let provider := historyProvider host repo in
      match provider, resolveGroup state provider with
      | Some provider, Some group =>
          match state with
          | None => inr (suspend host vm repo provider group [])
          | Some st =>
              if loadMore st
              then inr (suspend host vm repo provider group (items st))
              else inl (treeElements vm repo group (items st))
          end
      | _, _ => inl []
      end
  end.

(** [getHistoryItems] from its await on, run on the view model as it is when
    the provider's promise settles. *)
Definition getHistoryItems_resume (vm : ViewModel) (k : Suspended)
    (response : Settled (option (list ISCMHistoryItem)))
    : Settled (list SCMHistoryItemViewModelTreeElement) * ViewModel :=
  match response with
  | Rejected err => (Rejected err, vm)
  | Resolved page =>
      let historyItems := default [] page in
      let state :=
        {| currentHistoryItemGroup := await_currentHistoryItemGroup k;
           items := await_existingHistoryItems k ++ historyItems;
           loadMore := false |} in
      let vm' := set_state vm (insert (await_repository k) state) in
      (Resolved (treeElements vm' (await_repository k)
                   (await_currentHistoryItemGroup k) (items state)),
       vm')
  end.

Definition call_of (k : Suspended) : ProviderCall :=
  {| call_repository := await_repository k; call_options := await_options k |}.

(** One call of [getHistoryItems] run to completion with nothing else
    scheduled in between: the settlement of the returned promise, the view
    model afterwards, and the provider calls that were made. *)
Definition getHistoryItems (host : Host) (vm : ViewModel)
    : Settled (list SCMHistoryItemViewModelTreeElement) * ViewModel
      * list ProviderCall :=
  match getHistoryItems_begin host vm with
  | inl elements => (Resolved elements, vm, [])
  | inr k =>
      let response :=
        provider_provideHistoryItems (await_historyProvider k) (await_options k) in
      (getHistoryItems_resume vm k response, [call_of k])
  end.

(** The history items cached for a repository; none when there is no state. *)
Definition cachedItems (vm : ViewModel) (repo : ISCMRepository)
    : list ISCMHistoryItem :=
  match _state vm !! repo with
  | Some state => items state
  | None => []
  end.

(** The history items shown by a list of tree elements. *)
Definition shownItems (elements : list SCMHistoryItemViewModelTreeElement)
    : list ISCMHistoryItem :=
  (fun element => historyItem (historyItemViewModel element)) <$> elements.

(** The specification on a refresh, as it is written: after
    [clearRepositoryState] the next [getHistoryItems] makes exactly one
    provider call, with [skip] 0. *)
Definition refetchesFromZero (host : Host) (vm : ViewModel) : Prop :=
  ∃ call,
    (getHistoryItems host (clearRepositoryState host vm)).2 = [call]
    ∧ skip (call_options call) = Some 0%Z.

(** The view models the class can be in: the constructor leaves the filter
    at its initial value and no method assigns it; the cache is written by
    [clearRepositoryState], [setLoadMore], [getHistoryItems] and the cleanup
    of a closed repository. *)
Inductive reachable : ViewModel -> Prop :=
| reachable_new : reachable new_ViewModel
| reachable_clearRepositoryState host vm :
    reachable vm -> reachable (clearRepositoryState host vm)
| reachable_setLoadMore repo flag vm :
    reachable vm -> reachable (setLoadMore repo flag vm)
| reachable_getHistoryItems vm k response :
    reachable vm -> reachable (getHistoryItems_resume vm k response).2
| reachable_closedRepository repo vm :
    reachable vm -> reachable (set_state vm (delete repo)).

End ViewModel.

End SCMHistoryViewModel.

(** ** The Git history provider *)

Module GitHistoryProvider.

(** A commit as the repository log reports it (git.ts). *)
Record Commit : Type := {
  hash : string;
  message : string;
  parents : list string;
  authorDate : option Z;
  authorName : option string;
  refNames : list string;
  shortStat : option ISCMHistoryItemStatistics
}.

Record LogOptions : Type := {
  log_refNames : list string;
  log_shortStats : option bool;
  log_maxEntries : option Z;
  log_range : option string;
  log_skip : option Z;
  log_silent : option bool;
  log_maxParents : option Z
}.

(** What the provider calls and cannot see into: the repository (a Git
    process behind each method), the emoji table, and the serialisation of the
    options for the log line. Each asynchronous method is given by the
    settlement of the promise it returns. *)
Record Repository : Type := {
  log : LogOptions -> Settled (list Commit);
  getCommit : string -> Settled Commit;
  getEmptyTree : Settled string;
  getMergeBase : string -> string -> list string -> Settled (option string);
  ensureEmojis : Settled unit;
  emojify : string -> string;
  JSON_stringify : ISCMHistoryOptions -> string
}.

Record Provider : Type := {
  repo : Repository;
  currentHistoryItemGroup : option ISCMHistoryItemGroup
}.

(** What a run of the provider does to the outside, in order. *)
Inductive Effect : Type :=
| CallLog (options : LogOptions)
| CallGetCommit (ref : string)
| CallGetEmptyTree
| CallGetMergeBase (ref1 ref2 : string) (refs : list string)
| CallEnsureEmojis
| LoggerError (text : string).

(** An asynchronous computation: the effects it performed and the settlement
    of its promise. *)
Definition Async (A : Type) : Type := list Effect * Settled A.

Definition ret {A} (a : A) : Async A := ([], Resolved a).

Definition bind {A B} (m : Async A) (k : A -> Async B) : Async B :=
  match m with
  | (trace, Resolved a) => let '(trace', r) := k a in (trace ++ trace', r)
  | (trace, Rejected err) => (trace, Rejected err)
  end.

(** [try { m } catch (err) { handler err }] *)
Definition try_catch {A} (m : Async A) (handler : string -> Async A) : Async A :=
  match m with
  | (trace, Rejected err) => let '(trace', r) := handler err in (trace ++ trace', r)
  | settled => settled
  end.

(** One external call: its effect, and the settlement the repository gives. *)
Definition call {A} (e : Effect) (settled : Settled A) : Async A := ([e], settled).

Definition logger_error (text : string) : Async unit :=
  ([LoggerError text], Resolved tt).

Notation "x <- m ;; k" := (bind m (fun x => k))
  (at level 100, m at next level, right associativity).

Definition historyItemLabels : JSMap string :=
  Map_new [ ("HEAD -> refs/heads/", "target");
            ("tag: refs/tags/", "tag");
            ("refs/heads/", "git-branch");
            ("refs/remotes/", "cloud") ].

(** [label.substring(n)] *)
Definition substring_from (n : nat) (s : string) : string :=
  String.substring n (String.length s - n) s.

(** The inner loop of [resolveHistoryItemLabels]: the first key of the table
    that [label] starts with decides. *)
Fixpoint resolveLabel (table : JSMap string) (label : string)
    : option ISCMHistoryItemLabel :=
  match table with
  | [] => None
  | (key, value) :: table' =>
      if String.prefix key label
      then Some {| label_title := substring_from (String.length key) label;
                   label_icon := Some value |}
      else resolveLabel table' label
  end.

Definition resolveHistoryItemLabels (commit : Commit) : list ISCMHistoryItemLabel :=
  omap (resolveLabel historyItemLabels) (refNames commit).

Definition toHistoryItem (r : Repository) (commit : Commit) : ISCMHistoryItem :=
  let labels := resolveHistoryItemLabels commit in
  {| item_id := hash commit;
     item_parentIds := parents commit;
     item_message := emojify r (message commit);
     item_author := authorName commit;
     item_icon := Some "git-commit";
     item_displayId := Some (String.substring 0 8 (hash commit));
     item_timestamp := authorDate commit;
     item_statistics :=
       Some (default {| files := 0; insertions := 0; deletions := 0 |}
               (shortStat commit));
     item_labels := match labels with [] => None | _ => Some labels end |}.

Definition with_maxEntries (n : Z) (o : LogOptions) : LogOptions :=
  {| log_refNames := log_refNames o; log_shortStats := log_shortStats o;
     log_maxEntries := Some n; log_range := log_range o; log_skip := log_skip o;
     log_silent := log_silent o; log_maxParents := log_maxParents o |}.

Definition with_range (range : string) (o : LogOptions) : LogOptions :=
  {| log_refNames := log_refNames o; log_shortStats := log_shortStats o;
     log_maxEntries := log_maxEntries o; log_range := Some range;
     log_skip := log_skip o; log_silent := log_silent o;
     log_maxParents := log_maxParents o |}.

Definition with_skip (n : Z) (o : LogOptions) : LogOptions :=
  {| log_refNames := log_refNames o; log_shortStats := log_shortStats o;
     log_maxEntries := log_maxEntries o; log_range := log_range o;
     log_skip := Some n; log_silent := log_silent o;
     log_maxParents := log_maxParents o |}.

Definition with_silent (b : bool) (o : LogOptions) : LogOptions :=
  {| log_refNames := log_refNames o; log_shortStats := log_shortStats o;
     log_maxEntries := log_maxEntries o; log_range := log_range o;
     log_skip := log_skip o; log_silent := Some b;
     log_maxParents := log_maxParents o |}.

(** The [try] block of [provideHistoryItems]. *)
Definition provideHistoryItems_try (this : Provider)
    (options : ISCMHistoryOptions) (refNames : list string)
    : Async (list ISCMHistoryItem) :=
  let r := repo this in
  let logOptions :=
    {| log_refNames := refNames; log_shortStats := Some true;
       log_maxEntries := None; log_range := None; log_skip := None;
       log_silent := None; log_maxParents := None |} in
  logOptions <-
    match limit options with
    | None => ret (with_maxEntries 50 logOptions)
    | Some (LimitNumber n) => ret (with_maxEntries n logOptions)
    | Some (LimitItem (Some id)) =>
        commit <- call (CallGetCommit id) (getCommit r id) ;;
        commitParentId <-
          match parents commit with
          | parent :: _ => ret parent
          | [] => call CallGetEmptyTree (getEmptyTree r)
          end ;;
        ret (with_range (commitParentId +:+ "..") logOptions)
    | Some (LimitItem None) => ret logOptions
    end ;;
  let logOptions :=
    match skip options with
    | Some n => with_skip n logOptions
    | None => logOptions
    end in
  commits <- call (CallLog (with_silent true logOptions))
                  (log r (with_silent true logOptions)) ;;
  _ <- call CallEnsureEmojis (ensureEmojis r) ;;
  ret (toHistoryItem r <$> commits).

Definition provideHistoryItems (this : Provider) (options : ISCMHistoryOptions)
    : Async (list ISCMHistoryItem) :=
  match currentHistoryItemGroup this, historyItemGroupIds options with
  | Some _, Some ids =>
      (* Deduplicate refNames *)
      let refNames := Array_from_Set (Set_new ids) in
      try_catch (provideHistoryItems_try this options refNames)
        (fun err =>
           _ <- logger_error
                  ("[GitHistoryProvider][provideHistoryItems] Failed to get history items with options '"
                   +:+ JSON_stringify (repo this) options +:+ "': " +:+ err) ;;
           ret [])
  | _, _ => ret []
  end.

(** The [try] block of [resolveHistoryItemGroupCommonAncestor]; [None] stands
    for [return undefined] as well as for leaving the block without a
    [return], after which the function returns [undefined]. *)
Definition resolveHistoryItemGroupCommonAncestor_try (this : Provider)
    (ids : list string) : Async (option string) :=
  let r := repo this in
  match ids with
  | [] => ret None
  | [id0] =>
      match currentHistoryItemGroup this with
      | Some group =>
          if decide (id0 = group_id group) then
            match group_remote group, group_base group with
            | Some remote, _ =>
                call (CallGetMergeBase id0 (ref_id remote) [])
                     (getMergeBase r id0 (ref_id remote) [])
            | None, Some base =>
                call (CallGetMergeBase id0 (ref_id base) [])
                     (getMergeBase r id0 (ref_id base) [])
            | None, None =>
                let firstCommit :=
                  {| log_refNames := ["HEAD"]; log_shortStats := None;
                     log_maxEntries := None; log_range := None;
                     log_skip := None; log_silent := None;
                     log_maxParents := Some 0%Z |} in
                commits <- call (CallLog firstCommit) (log r firstCommit) ;;
                match commits with
                | commit :: _ => ret (Some (hash commit))
                | [] => ret None
                end
            end
          else ret None
      | None => ret None
      end
  | id0 :: id1 :: rest =>
      call (CallGetMergeBase id0 id1 rest) (getMergeBase r id0 id1 rest)
  end.

Definition resolveHistoryItemGroupCommonAncestor (this : Provider)
    (ids : list string) : Async (option string) :=
  try_catch (resolveHistoryItemGroupCommonAncestor_try this ids)
    (fun err =>
       _ <- logger_error
              ("[GitHistoryProvider][resolveHistoryItemGroupCommonAncestor] Failed to resolve common ancestor for "
               +:+ String.concat "," ids +:+ ": " +:+ err) ;;
       ret None).

(** The log calls among the effects of a run. *)
Definition logCalls (trace : list Effect) : list LogOptions :=
  omap (fun e => match e with CallLog o => Some o | _ => None end) trace.

Definition loggedErrors (trace : list Effect) : list string :=
  omap (fun e => match e with LoggerError t => Some t | _ => None end) trace.

(** The provider as the history view sees it. The extension host hands the
    options to [provideHistoryItems] and its result back to the view as they
    are. *)
Definition asHistoryProvider (this : Provider)
    : SCMHistoryViewModel.ISCMHistoryProvider :=
  {| SCMHistoryViewModel.provider_currentHistoryItemGroup :=
       currentHistoryItemGroup this;
     SCMHistoryViewModel.provider_provideHistoryItems := fun options =>
       match (provideHistoryItems this options).2 with
       | Resolved historyItems => Resolved (Some historyItems)
       | Rejected err => Rejected err
       end |}.

End GitHistoryProvider.

(** ** The load-more continuation of the history view pane *)

Module SCMHistoryViewPane.

Import SCMHistoryViewModel.

(** A body queued by [_loadMoreCallback] that has passed its guard. *)
Inductive LoadMoreBody : Type :=
| AwaitUpdateChildren
    (* awaiting [this._updateChildren()], the tree has yet to ask for children *)
| AwaitProvider (k : Suspended)
    (* the tree asked; [getHistoryItems] awaits the provider *).

(** How a started body ended. *)
Inductive Outcome : Type :=
| ReturnedAtGuard (repo : ISCMRepository)
| Loaded (repo : ISCMRepository)
| Failed (repo : ISCMRepository) (err : string)
    (* the awaited update rejected: the statement after the await, which
       resets the flag, was not reached *).

(** Modelled from the spec: [Sequencer] and [Throttler] of
    base/common/async.ts and the asynchronous tree are not part of the
    sources. Operations given to a sequencer "are serialized through a single
    queue": a queued body starts when every body queued before it has
    finished. With no refresh under way, [_updateChildren] makes the tree ask
    its data source for the children of the view model once, which is one call
    of [getHistoryItems] ([SCMHistoryTreeDataSource.getChildren]). When the
    promise of [getHistoryItems] rejects, the update rejects with it ("on
    provider failure, let the failure propagate to the caller"), and so does
    the body of [_loadMoreCallback], which has no handler around its await;
    the sequencer then goes on with the next body. Refreshes and closed
    repositories are not part of this model: its events are those of
    load-more alone.

    [queued] are the bodies handed to [_treeLoadMoreSequencer] and not yet
    started, each with the repository it closes over; [running] is the body
    that has started and not finished. [providerCalls] and [outcomes] record
    what happened and are read by no operation. *)
Record Pane : Type := {
  _treeViewModel : ViewModel;
  _repositoryLoadMore : bool;
  queued : list ISCMRepository;
  running : option (ISCMRepository * LoadMoreBody);
  providerCalls : list ProviderCall;
  outcomes : list Outcome
}.

Inductive Event : Type :=
| InvokeLoadMore (repo : ISCMRepository)
    (* [_loadMoreCallback(repo)] is called *)
| SequencerStartsNext
    (* the sequencer starts the body at the head of its queue *)
| TreeAsksChildren
    (* the update reaches the data source, which calls [getHistoryItems] *)
| ProviderResolves (page : option (list ISCMHistoryItem))
    (* the promise of [provideHistoryItems] resolves *)
| ProviderRejects (err : string)
    (* the promise of [provideHistoryItems] rejects *).

Definition idle (vm : ViewModel) : Pane :=
  {| _treeViewModel := vm; _repositoryLoadMore := false; queued := [];
     running := None; providerCalls := []; outcomes := [] |}.

Section Pane.

Context (scmHistory : ScmHistory) (host : Host).

(** The body of [_loadMoreCallback] from its first line to its first await. *)
Definition startBody (repo : ISCMRepository) (rest : list ISCMRepository)
    (p : Pane) : Pane :=
  if _repositoryLoadMore p then
    {| _treeViewModel := _treeViewModel p;
       _repositoryLoadMore := _repositoryLoadMore p;
       queued := rest; running := None;
       providerCalls := providerCalls p;
       outcomes := outcomes p ++ [ReturnedAtGuard repo] |}
  else
    {| _treeViewModel := setLoadMore repo true (_treeViewModel p);
       _repositoryLoadMore := true;
       queued := rest; running := Some (repo, AwaitUpdateChildren);
       providerCalls := providerCalls p;
       outcomes := outcomes p |}.

(** The body after [await this._updateChildren()]: the flag is reset. *)
Definition finishBody (repo : ISCMRepository) (vm : ViewModel) (p : Pane) : Pane :=
  {| _treeViewModel := vm;
     _repositoryLoadMore := false;
     queued := queued p; running := None;
     providerCalls := providerCalls p;
     outcomes := outcomes p ++ [Loaded repo] |}.

(** The body when [await this._updateChildren()] rejects: the rejection
    leaves the body at the await, so the flag stays as it is. *)
Definition failBody (repo : ISCMRepository) (err : string) (vm : ViewModel)
    (p : Pane) : Pane :=
  {| _treeViewModel := vm;
     _repositoryLoadMore := _repositoryLoadMore p;
     queued := queued p; running := None;
     providerCalls := providerCalls p;
     outcomes := outcomes p ++ [Failed repo err] |}.

Definition step (p : Pane) (e : Event) : Pane :=
  match e, running p, queued p with
  | InvokeLoadMore repo, _, _ =>
      {| _treeViewModel := _treeViewModel p;
         _repositoryLoadMore := _repositoryLoadMore p;
         queued := queued p ++ [repo]; running := running p;
         providerCalls := providerCalls p; outcomes := outcomes p |}
  | SequencerStartsNext, None, repo :: rest => startBody repo rest p
  | TreeAsksChildren, Some (repo, AwaitUpdateChildren), _ =>
      match getHistoryItems_begin scmHistory host (_treeViewModel p) with
      | inl _ => finishBody repo (_treeViewModel p) p
      | inr k =>
          {| _treeViewModel := _treeViewModel p;
             _repositoryLoadMore := _repositoryLoadMore p;
             queued := queued p; running := Some (repo, AwaitProvider k);
             providerCalls := providerCalls p ++ [call_of k];
             outcomes := outcomes p |}
      end
  | ProviderResolves page, Some (repo, AwaitProvider k), _ =>
      finishBody repo
        (getHistoryItems_resume scmHistory (_treeViewModel p) k (Resolved page)).2 p
  | ProviderRejects err, Some (repo, AwaitProvider k), _ =>
      failBody repo err
        (getHistoryItems_resume scmHistory (_treeViewModel p) k (Rejected err)).2 p
  | _, _, _ => p
  end.

Definition run (events : list Event) (p : Pane) : Pane :=
  fold_left step events p.

(** A body of the pane has failed. *)
Definition failed (p : Pane) : Prop :=
  ∃ repo err, Failed repo err ∈ outcomes p.

(** The flag is set exactly while a body is running or after a body has
    failed; no body runs after a failed one; and a body has returned at the
    guard only after a failed one. *)
Definition guarded (p : Pane) : Prop :=
  (_repositoryLoadMore p = true ↔ is_Some (running p) ∨ failed p)
  ∧ (failed p -> running p = None)
  ∧ (∀ repo, ReturnedAtGuard repo ∈ outcomes p -> failed p).

(** The specification on concurrent load-more, as it is written: when
    [_loadMoreCallback] is called a second time for [repo] while the fetch
    triggered by the first call is outstanding, the second call is a no-op
    and one provider call is made in total, however the run goes on without
    further calls of [_loadMoreCallback]. *)
Definition singleFlight (vm : ViewModel) (repo : ISCMRepository) : Prop :=
  let during :=
    run [InvokeLoadMore repo; SequencerStartsNext; TreeAsksChildren] (idle vm) in
  ∀ later,
    Forall (fun e => ∀ r, e ≠ InvokeLoadMore r) later ->
    length (providerCalls (run (InvokeLoadMore repo :: later) during)) ≤ 1.

End Pane.

End SCMHistoryViewPane.

(** ** The history view over the Git history provider *)

Module GitHistoryView.

Import SCMHistoryViewModel.

(** The specification on failures, as it is written: when the fetch of the
    Git history provider fails during a call of [getHistoryItems], the call
    rejects with that failure. *)
Definition failurePropagates (scmHistory : ScmHistory)
    (git : GitHistoryProvider.Provider) (host : Host) (vm : ViewModel) : Prop :=
  ∀ call ids err,
    call ∈ (getHistoryItems scmHistory host vm).2 ->
    historyItemGroupIds (call_options call) = Some ids ->
    (GitHistoryProvider.provideHistoryItems_try git (call_options call)
       (Array_from_Set (Set_new ids))).2 = Rejected err ->
    (getHistoryItems scmHistory host vm).1.1 = Rejected err.

End GitHistoryView.

(** ** A repository with three commits *)

Module Scenario.

Import SCMHistoryViewModel.

Definition scmHistory : ScmHistory :=
  {| historyItemGroupLocal := "scmGraph.historyItemGroupLocal";
     historyItemGroupRemote := "scmGraph.historyItemGroupRemote";
     historyItemGroupBase := "scmGraph.historyItemGroupBase";
     swimlanes := fun _ _ _ => ([], []) |}.

Definition commit (id : string) (parentIds : list string) : ISCMHistoryItem :=
  {| item_id := id; item_parentIds := parentIds; item_message := "message";
     item_author := Some "author"; item_icon := None; item_displayId := None;
     item_timestamp := None; item_statistics := None; item_labels := None |}.

Definition c1 : ISCMHistoryItem := commit "c1" ["c2"].
Definition c2 : ISCMHistoryItem := commit "c2" ["c3"].
Definition c3 : ISCMHistoryItem := commit "c3" [].

Definition originMain : ISCMHistoryItemGroupRef :=
  {| ref_id := "refs/remotes/origin/main"; ref_name := "origin/main";
     ref_revision := Some "c3" |}.

(** The group of the specification's scenario: remote and base have the same
    name. *)
Definition main : ISCMHistoryItemGroup :=
  {| group_id := "refs/heads/main"; group_name := "main";
     group_revision := Some "c1";
     group_remote := Some originMain; group_base := Some originMain |}.

(** A provider that pages through c1, c2, c3. *)
Definition pagingProvider : ISCMHistoryProvider :=
  {| provider_currentHistoryItemGroup := Some main;
     provider_provideHistoryItems := fun options =>
       match limit options, skip options with
       | Some (LimitNumber n), Some k =>
           Resolved (Some (take (Z.to_nat n) (drop (Z.to_nat k) [c1; c2; c3])))
       | _, _ => Resolved None
       end |}.

(** A provider without a current history item group. *)
Definition detachedProvider : ISCMHistoryProvider :=
  {| provider_currentHistoryItemGroup := None;
     provider_provideHistoryItems := fun _ => Resolved (Some [c1; c2; c3]) |}.

(** A provider whose promise rejects. *)
Definition offlineProvider : ISCMHistoryProvider :=
  {| provider_currentHistoryItemGroup := Some main;
     provider_provideHistoryItems := fun _ => Rejected "offline" |}.

Definition hostOf (provider : option ISCMHistoryProvider) : Host :=
  {| repository := Some 1;
     historyProvider := fun repo => if decide (repo = 1) then provider else None;
     pageSize := 2 |}.

Definition host : Host := hostOf (Some pagingProvider).

Definition cached : HistoryItemState :=
  {| currentHistoryItemGroup := main; items := [c1; c2]; loadMore := false |}.

Definition cachedViewModel : ViewModel :=
  {| _historyItemGroupFilter := FilterAuto; _state := {[ 1 := cached ]} |}.

Definition firstRequest : ISCMHistoryOptions :=
  {| historyItemGroupIds := Some ["c1"; "c3"; "c3"];
     limit := Some (LimitNumber 2);
     skip := Some 0%Z |}.

(** A Git repository in which every Git process fails. *)
Definition brokenRepository : GitHistoryProvider.Repository :=
  {| GitHistoryProvider.log := fun _ => Rejected "fatal: bad revision";
     GitHistoryProvider.getCommit := fun _ => Rejected "fatal: bad object";
     GitHistoryProvider.getEmptyTree := Rejected "fatal: no tree";
     GitHistoryProvider.getMergeBase := fun _ _ _ => Rejected "fatal: no merge base";
     GitHistoryProvider.ensureEmojis := Resolved tt;
     GitHistoryProvider.emojify := fun s => s;
     GitHistoryProvider.JSON_stringify := fun _ => "{}" |}.

Definition brokenGit : GitHistoryProvider.Provider :=
  {| GitHistoryProvider.repo := brokenRepository;
     GitHistoryProvider.currentHistoryItemGroup := Some main |}.

Definition brokenGitHost : Host :=
  hostOf (Some (GitHistoryProvider.asHistoryProvider brokenGit)).

(** A Git repository with one commit, on which the log succeeds. *)
Definition gitCommit : GitHistoryProvider.Commit :=
  {| GitHistoryProvider.hash := "0123456789abcdef";
     GitHistoryProvider.message := "first";
     GitHistoryProvider.parents := [];
     GitHistoryProvider.authorDate := Some 0%Z;
     GitHistoryProvider.authorName := Some "author";
     GitHistoryProvider.refNames := ["HEAD -> refs/heads/main"; "refs/remotes/origin/main"];
     GitHistoryProvider.shortStat := None |}.

Definition workingGit : GitHistoryProvider.Provider :=
  {| GitHistoryProvider.repo :=
       {| GitHistoryProvider.log := fun _ => Resolved [gitCommit];
          GitHistoryProvider.getCommit := fun _ => Resolved gitCommit;
          GitHistoryProvider.getEmptyTree := Resolved "4b825dc6";
          GitHistoryProvider.getMergeBase := fun _ _ _ => Resolved (Some "0123456789abcdef");
          GitHistoryProvider.ensureEmojis := Resolved tt;
          GitHistoryProvider.emojify := fun s => s;
          GitHistoryProvider.JSON_stringify := fun _ => "{}" |};
     GitHistoryProvider.currentHistoryItemGroup := Some main |}.

End Scenario.

(** ** Asynchronous code with effects of its own *)

Module Task.

(** A run of asynchronous code: the effects it performed, in order, and the
    settlement of its promise. *)
Definition Task (E A : Type) : Type := list E * Settled A.

Definition ret {E A} (a : A) : Task E A := ([], Resolved a).

Definition bind {E A B} (m : Task E A) (k : A -> Task E B) : Task E B :=
  match m with
  | (trace, Resolved a) => let '(trace', r) := k a in (trace ++ trace', r)
  | (trace, Rejected err) => (trace, Rejected err)
  end.

(** An awaited external call, and an effect that returns nothing. *)
Definition call {E A} (e : E) (settled : Settled A) : Task E A := ([e], settled).

Definition emit {E} (e : E) : Task E unit := ([e], Resolved tt).

End Task.

Notation "x <~ m ;; k" := (Task.bind m (fun x => k))
  (at level 100, m at next level, right associativity).

(** [`${s}`] for a string that may be [undefined]. *)
Definition interpolate (s : option string) : string := default "undefined" s.

(** [!s] is false: the string is defined and not empty. *)
Definition truthy (s : option string) : bool :=
  match s with
  | Some (String _ _) => true
  | _ => false
  end.

(** The character "/" (code 47). *)
Definition slash : Ascii.ascii :=
  Ascii.Ascii true true true true false true false false.

(** The string has no "/". *)
Fixpoint slashFree (s : string) : bool :=
  match s with
  | EmptyString => true
  | String c s' => negb (Ascii.eqb c slash) && slashFree s'
  end.

(** ** The Git history provider: the current history item group *)

Module GitStatus.

(** [RefType], [UpstreamRef] and [Branch] of api/git, with the fields the
    provider reads. *)
Inductive RefType : Type := Head | RemoteHead | Tag.

Record UpstreamRef : Type := {
  upstream_remote : string;
  upstream_name : string;
  upstream_commit : option string
}.

Record Branch : Type := {
  branch_type : RefType;
  branch_name : option string;
  branch_commit : option string;
  branch_remote : option string;
  branch_upstream : option UpstreamRef
}.

(** What [onDidRunGitStatus] reads from the repository, and the serialisation
    used for its trace line. *)
Record Status : Type := {
  HEAD : option Branch;
  getBranchBase : string -> Settled (option Branch);
  JSON_stringify : ISCMHistoryItemGroup -> string
}.

Inductive Effect : Type :=
| CallGetBranchBase (name : string)
| LoggerTrace (text : string)
| FireDidChangeCurrentHistoryItemGroup.

Definition RefType_eqb (a b : RefType) : bool :=
  match a, b with
  | Head, Head | RemoteHead, RemoteHead | Tag, Tag => true
  | _, _ => false
  end.

Definition resolveHEADMergeBase (status : Status) : Task.Task Effect (option Branch) :=
  match HEAD status with
  | Some head =>
      if negb (RefType_eqb (branch_type head) Head)
         || negb (truthy (branch_name head))
      then Task.ret None
      else
        match branch_name head with
        | Some name =>
            Task.call (CallGetBranchBase name) (getBranchBase status name)
        | None => Task.ret None
        end
  | None => Task.ret None
  end.

(** The group built from [HEAD] and the merge base. *)
Definition groupOf (head : Branch) (mergeBase : option Branch)
    : ISCMHistoryItemGroup :=
  let currentHistoryItemGroupId :=
    match branch_name head with
    | None => branch_commit head
    | Some name =>
        Some (if RefType_eqb (branch_type head) Tag
              then "refs/tags/" +:+ name
              else "refs/heads/" +:+ name)
    end in
  let currentHistoryItemGroupName :=
    match branch_name head with
    | Some name => Some name
    | None => branch_commit head
    end in
  {| group_id := default EmptyString currentHistoryItemGroupId;
     group_name := default EmptyString currentHistoryItemGroupName;
     group_revision := branch_commit head;
     group_remote :=
       match branch_upstream head with
       | Some upstream =>
           Some {| ref_id := "refs/remotes/" +:+ upstream_remote upstream
                             +:+ "/" +:+ upstream_name upstream;
                   ref_name := upstream_remote upstream +:+ "/"
                               +:+ upstream_name upstream;
                   ref_revision := upstream_commit upstream |}
       | None => None
       end;
     group_base :=
       match mergeBase with
       | Some mergeBase =>
           if bool_decide (branch_remote mergeBase
                           ≠ (upstream_remote <$> branch_upstream head))
              || bool_decide (branch_name mergeBase
                              ≠ (upstream_name <$> branch_upstream head))
           then Some {| ref_id := "refs/remotes/"
                                  +:+ interpolate (branch_remote mergeBase)
                                  +:+ "/" +:+ interpolate (branch_name mergeBase);
                        ref_name := interpolate (branch_remote mergeBase)
                                    +:+ "/" +:+ interpolate (branch_name mergeBase);
                        ref_revision := branch_commit mergeBase |}
           else None
       | None => None
       end |}.

(** [onDidRunGitStatus]: the effects, the settlement, and the current history
    item group afterwards. The setter of [currentHistoryItemGroup] assigns and
    fires the change event. *)
Definition onDidRunGitStatus (status : Status)
    (current : option ISCMHistoryItemGroup)
    : Task.Task Effect unit * option ISCMHistoryItemGroup :=
  match HEAD status with
  | None =>
      (([LoggerTrace "[GitHistoryProvider][onDidRunGitStatus] repository.HEAD is undefined";
         FireDidChangeCurrentHistoryItemGroup], Resolved tt), None)
  | Some head =>
      match resolveHEADMergeBase status with
      | (trace, Rejected err) => ((trace, Rejected err), current)
      | (trace, Resolved mergeBase) =>
          let group := groupOf head mergeBase in
          ((trace ++
            [FireDidChangeCurrentHistoryItemGroup;
             LoggerTrace ("[GitHistoryProvider][onDidRunGitStatus] currentHistoryItemGroup: "
                          +:+ JSON_stringify status group)],
            Resolved tt),
           Some group)
      end
  end.

End GitStatus.

(** ** The Git history provider: changes of a history item and their decorations *)

Module GitChanges.

Record FileDecoration : Type := {
  badge : string;
  tooltip : string;
  color : string
}.

Section Changes.

(** [Uri] of the extension API and [Status] of api/git are used as they come:
    the provider builds URIs with [with] and [toGitUri], and uses their
    [toString] as the key of its decorations. *)
Context {Uri Status : Type}.

(** A change reported by [diffTrees]. *)
Record Change : Type := {
  change_uri : Uri;
  change_originalUri : Uri;
  change_renameUri : option Uri;
  change_status : Status
}.

Record Api : Type := {
  with_query : Uri -> string -> Uri;
  toString : Uri -> string;
  toGitUri : Uri -> string -> Uri;
  getStatusLetter : Status -> string;
  getStatusText : Status -> string;
  getStatusColor : Status -> string;
  getEmptyTree : Settled string;
  diffTrees : string -> string -> Settled (list Change)
}.

Record SourceControlHistoryItemChange : Type := {
  uri : Uri;
  originalUri : Uri;
  modifiedUri : Uri;
  renameUri : option Uri
}.

Inductive Effect : Type :=
| CallGetEmptyTree
| CallDiffTrees (ref1 ref2 : string)
| FireDidChangeDecorations (uris : list Uri).

(** The state of the loop of [provideHistoryItemChanges]. *)
Record Loop : Type := {
  historyItemChangesUri : list Uri;
  historyItemChanges : list SourceControlHistoryItemChange;
  historyItemDecorations : gmap string FileDecoration
}.

Context (api : Api).

Definition historyItemUri (historyItemId : string)
    (change : Change) : Uri :=
  with_query api (change_uri change) ("ref=" +:+ historyItemId).

Definition decorationOf (change : Change) : FileDecoration :=
  {| badge := getStatusLetter api (change_status change);
     tooltip := getStatusText api (change_status change);
     color := getStatusColor api (change_status change) |}.

(** One iteration of the loop. *)
Definition loopBody (historyItemId historyItemParentId : string) (l : Loop)
    (change : Change) : Loop :=
  let historyItemUri := historyItemUri historyItemId change in
  {| historyItemChanges :=
       historyItemChanges l ++
       [{| uri := historyItemUri;
           originalUri := toGitUri api (change_originalUri change) historyItemParentId;
           modifiedUri := toGitUri api (change_uri change) historyItemId;
           renameUri := change_renameUri change |}];
     historyItemDecorations :=
       <[toString api historyItemUri := decorationOf change]>
         (historyItemDecorations l);
     historyItemChangesUri := historyItemChangesUri l ++ [historyItemUri] |}.

(** [provideHistoryItemChanges]: the effects and the settlement, and the
    decorations the provider holds afterwards. *)
Definition provideHistoryItemChanges (decorations : gmap string FileDecoration)
    (historyItemId : string) (historyItemParentId : option string)
    : Task.Task Effect (list SourceControlHistoryItemChange)
      * gmap string FileDecoration :=
  let parent :=
    match historyItemParentId with
    | Some parent => Task.ret parent
    | None => Task.call CallGetEmptyTree (getEmptyTree api)
    end in
  match parent with
  | (trace, Rejected err) => ((trace, Rejected err), decorations)
  | (trace, Resolved parent) =>
      match diffTrees api parent historyItemId with
      | Rejected err =>
          ((trace ++ [CallDiffTrees parent historyItemId], Rejected err), decorations)
      | Resolved changes =>
          let l :=
            fold_left (loopBody historyItemId parent) changes
              {| historyItemChangesUri := []; historyItemChanges := [];
                 historyItemDecorations := decorations |} in
          ((trace ++ [CallDiffTrees parent historyItemId;
                      FireDidChangeDecorations (historyItemChangesUri l)],
            Resolved (historyItemChanges l)),
           historyItemDecorations l)
      end
  end.

Definition provideFileDecoration (decorations : gmap string FileDecoration)
    (u : Uri) : option FileDecoration :=
  decorations !! toString api u.

End Changes.

End GitChanges.

(** ** The history tree: data source, identity, opening a row *)

Module SCMHistoryTree.

Import SCMHistoryViewModel.

Record SCMHistoryItemLoadMoreTreeElement : Type := {
  loadMore_repository : ISCMRepository;
  graphColumns : list ISCMHistoryItemGraphNode
}.

Inductive TreeElement : Type :=
| HistoryItemRow (element : SCMHistoryItemViewModelTreeElement)
| LoadMoreRow (element : SCMHistoryItemLoadMoreTreeElement).

Definition isLoadMoreRow (element : TreeElement) : bool :=
  match element with LoadMoreRow _ => true | HistoryItemRow _ => false end.

(** The history item rows among the children, in order. *)
Definition historyRows (children : list TreeElement)
    : list SCMHistoryItemViewModelTreeElement :=
  omap (fun child =>
          match child with
          | HistoryItemRow element => Some element
          | LoadMoreRow _ => None
          end) children.

Section DataSource.

Context (scmHistory : ScmHistory).

(** The "Load More element" part of [getChildren]. [tail] of
    base/common/arrays.ts gives the last element of an array, [undefined] for
    the empty one. *)
Definition loadMoreElement (host : Host)
    (historyItems : list SCMHistoryItemViewModelTreeElement) : list TreeElement :=
  match repository host, last historyItems with
  | Some repo, Some lastHistoryItem =>
      match outputSwimlanes (historyItemViewModel lastHistoryItem) with
      | [] => []
      | columns =>
          [LoadMoreRow {| loadMore_repository := repo; graphColumns := columns |}]
      end
  | _, _ => []
  end.

(** [SCMHistoryTreeDataSource.getChildren], run to completion as
    [getHistoryItems] is. *)
Definition getChildren (host : Host) (input : ViewModel + TreeElement)
    : Settled (list TreeElement) * option ViewModel * list ProviderCall :=
  match input with
  | inr _ => (Resolved [], None, [])
  | inl vm =>
      match getHistoryItems scmHistory host vm with
      | (Resolved historyItems, vm', calls) =>
          (Resolved ((HistoryItemRow <$> historyItems)
                     ++ loadMoreElement host historyItems),
           Some vm', calls)
      | (Rejected err, vm', calls) => (Rejected err, Some vm', calls)
      end
  end.

Definition hasChildren (input : ViewModel + TreeElement) : bool :=
  match input with inl _ => true | inr _ => false end.

End DataSource.

(** The history provider of the workbench beyond [provideHistoryItems], and the
    SCM provider of a repository. A change is given by its URI. *)
Record HistoryProviderOps : Type := {
  provideHistoryItemChanges :
    string -> option string -> Settled (option (list string));
  resolveHistoryItemGroupCommonAncestor : list string -> Settled (option string)
}.

Record ISCMProvider : Type := {
  provider_id : string;
  provider_label : string;
  provider_rootUri_path : option string;
  provider_historyProvider : option HistoryProviderOps
}.

(** What the identity provider is asked about: a repository or a row. *)
Inductive IdentityElement : Type :=
| RepositoryElement (repo : ISCMRepository)
| RowElement (row : TreeElement).

(** The argument of the command [_workbench.openMultiDiffEditor]. *)
Record MultiDiffEditorInput : Type := {
  title : string;
  multiDiffSourceUri_scheme : string;
  multiDiffSourceUri_path : string;
  resources : list string
}.

Inductive Effect : Type :=
| CallResolveCommonAncestor (ids : list string)
| CallProvideHistoryItemChanges (historyItemId : string) (parentId : option string)
| ExecuteOpenMultiDiffEditor (input : MultiDiffEditorInput)
| InvokeLoadMoreCallback (repo : ISCMRepository)
| TreeSetSelection (selection : list TreeElement).

(** What rendering the load-more row does. *)
Inductive RenderEffect : Type :=
| ClearGraphPlaceholder
| SetGraphPlaceholderWidth (px : Z)
| AppendGraphPlaceholder (columns : list ISCMHistoryItemGraphNode)
| ToggleShimmer (force : bool)
| SetLabel (text : string)
| RenderInvokesLoadMoreCallback (repo : ISCMRepository)
| AutorunSetLabel (text : string).

Section Tree.

(** The provider of each repository, the configuration value
    scm.graph.pageOnScroll, the settlement of the command, [localize] of nls,
    and [SWIMLANE_WIDTH] of scmHistory.ts. *)
Context (providerOf : ISCMRepository -> ISCMProvider)
        (pageOnScroll : option bool)
        (executeCommand : MultiDiffEditorInput -> Settled unit)
        (localize : string -> list string -> string)
        (SWIMLANE_WIDTH : Z).

(** [getValue<boolean>('scm.graph.pageOnScroll') === true] *)
Definition pageOnScroll_is_true : bool :=
  match pageOnScroll with Some true => true | _ => false end.

Definition getId (element : IdentityElement) : string :=
  match element with
  | RepositoryElement repo => "repo:" +:+ provider_id (providerOf repo)
  | RowElement (HistoryItemRow element) =>
      let historyItem := historyItem (historyItemViewModel element) in
      "historyItem:" +:+ provider_id (providerOf (element_repository element))
      +:+ "/" +:+ item_id historyItem
      +:+ "/" +:+ String.concat "," (item_parentIds historyItem)
  | RowElement (LoadMoreRow element) =>
      "historyItemLoadMore:"
      +:+ provider_id (providerOf (loadMore_repository element)) +:+ "}"
  end.

(** [historyProvider?.provideHistoryItemChanges(id, parentId)] *)
Definition askChanges (historyProvider : option HistoryProviderOps)
    (historyItemId : string) (parentId : option string)
    : Task.Task Effect (option (list string)) :=
  match historyProvider with
  | Some hp =>
      Task.call (CallProvideHistoryItemChanges historyItemId parentId)
                (provideHistoryItemChanges hp historyItemId parentId)
  | None => Task.ret None
  end.

Definition sourcePath (provider : ISCMProvider) : string :=
  default (provider_label provider) (provider_rootUri_path provider).

Definition singleTitle (historyItem : ISCMHistoryItem) : string :=
  default (item_id historyItem) (item_displayId historyItem)
  +:+ " - " +:+ item_message historyItem.

Definition multiDiffInput (provider : ISCMProvider) (title : string)
    (historyItemParentId : option string) (historyItem : ISCMHistoryItem)
    (historyItemChanges : list string) : MultiDiffEditorInput :=
  {| title := title;
     multiDiffSourceUri_scheme := "scm-history-item";
     multiDiffSourceUri_path :=
       sourcePath provider +:+ "/" +:+ interpolate historyItemParentId
       +:+ ".." +:+ item_id historyItem;
     resources := historyItemChanges |}.

(** [SCMHistoryViewPane._onDidOpen] *)
Definition _onDidOpen (element : option TreeElement) : Task.Task Effect unit :=
  match element with
  | None => Task.ret tt
  | Some (HistoryItemRow element) =>
      let historyItem := historyItem (historyItemViewModel element) in
      let historyItemParentId := head (item_parentIds historyItem) in
      let provider := providerOf (element_repository element) in
      historyItemChanges <~
        askChanges (provider_historyProvider provider)
          (item_id historyItem) historyItemParentId ;;
      match historyItemChanges with
      | Some historyItemChanges =>
          let input :=
            multiDiffInput provider (singleTitle historyItem)
              historyItemParentId historyItem historyItemChanges in
          Task.call (ExecuteOpenMultiDiffEditor input) (executeCommand input)
      | None => Task.ret tt
      end
  | Some (LoadMoreRow element) =>
      if pageOnScroll_is_true then Task.ret tt
      else
        _ <~ Task.emit (InvokeLoadMoreCallback (loadMore_repository element)) ;;
        Task.emit (TreeSetSelection [])
  end.

(** [HistoryItemLoadMoreRenderer.renderElement]; [loadingMore] is the value
    the autorun reads when it first runs. *)
Definition renderElement (element : SCMHistoryItemLoadMoreTreeElement)
    (loadingMore : bool) : list RenderEffect :=
  [ClearGraphPlaceholder;
   SetGraphPlaceholderWidth
     (SWIMLANE_WIDTH * (Z.of_nat (length (graphColumns element)) + 1));
   AppendGraphPlaceholder (graphColumns element);
   ToggleShimmer pageOnScroll_is_true]
  ++ (if pageOnScroll_is_true
      then [SetLabel EmptyString;
            RenderInvokesLoadMoreCallback (loadMore_repository element)]
      else [AutorunSetLabel
              (localize "loadMore"
                 ["$(" +:+ (if loadingMore then "loading~spin" else "fold-down")
                  +:+ ")"])]).

(** The action "View Changes" ([workbench.scm.action.scm.viewChanges]). *)
Definition viewChanges (provider : option ISCMProvider)
    (historyItems : list ISCMHistoryItem) : Task.Task Effect unit :=
  match provider, historyItems, last historyItems with
  | Some provider, historyItem :: _, Some historyItemLast =>
      let historyProvider := provider_historyProvider provider in
      proceed <~
        (if bool_decide (1 < length historyItems) then
           ancestor <~
             match historyProvider with
             | Some hp =>
                 Task.call
                   (CallResolveCommonAncestor
                      [item_id historyItem; item_id historyItemLast])
                   (resolveHistoryItemGroupCommonAncestor hp
                      [item_id historyItem; item_id historyItemLast])
             | None => Task.ret None
             end ;;
           Task.ret
             (truthy ancestor
              && (bool_decide (ancestor = Some (item_id historyItem))
                  || bool_decide (ancestor = Some (item_id historyItemLast))))
         else Task.ret true) ;;
      if proceed then
        let historyItemParentId := head (item_parentIds historyItemLast) in
        historyItemChanges <~
          askChanges historyProvider (item_id historyItem) historyItemParentId ;;
        match historyItemChanges with
        | Some (change :: changes) =>
            let title :=
              match historyItems with
              | [single] => singleTitle single
              | _ =>
                  localize "historyItemChangesEditorTitle"
                    [default (item_id historyItemLast) (item_displayId historyItemLast);
                     default (item_id historyItem) (item_displayId historyItem)]
              end in
            Task.emit
              (ExecuteOpenMultiDiffEditor
                 (multiDiffInput provider title historyItemParentId historyItem
                    (change :: changes)))
        | _ => Task.ret tt
        end
      else Task.ret tt
  | _, _, _ => Task.ret tt
  end.

End Tree.

End SCMHistoryTree.

(** ** The cache while a load-more body awaits the provider *)

Module PaneCount.

Import SCMHistoryViewModel SCMHistoryViewPane.

(** While [getHistoryItems] awaits the provider for a body, the items it
    took from the cache are the items the cache still holds. *)
Definition awaitsOnCache (p : Pane) : Prop :=
  ∀ repo k,
    running p = Some (repo, AwaitProvider k) ->
    await_existingHistoryItems k
    = cachedItems (_treeViewModel p) (await_repository k).

End PaneCount.

(** ** Counting the repository calls of the Git history provider *)

Module GitCalls.

Import GitHistoryProvider.

Definition isRepositoryCall (e : Effect) : bool :=
  match e with LoggerError _ => false | _ => true end.

(** The calls to the repository (and to the emoji table) among the effects of
    a run: everything but the lines written to the log. *)
Definition repositoryCalls (trace : list Effect) : list Effect :=
  filter (fun e => isRepositoryCall e = true) trace.

(** The first statement of the [try] block of [provideHistoryItems]: the log
    options after the limit has been looked at. *)
Definition limitStage (r : Repository) (options : ISCMHistoryOptions)
    (logOptions : LogOptions) : Async LogOptions :=
  match limit options with
  | None => ret (with_maxEntries 50 logOptions)
  | Some (LimitNumber n) => ret (with_maxEntries n logOptions)
  | Some (LimitItem (Some id)) =>
      commit <- call (CallGetCommit id) (getCommit r id) ;;
      commitParentId <-
        match parents commit with
        | parent :: _ => ret parent
        | [] => call CallGetEmptyTree (getEmptyTree r)
        end ;;
      ret (with_range (commitParentId +:+ "..") logOptions)
  | Some (LimitItem None) => ret logOptions
  end.

(** The log options the [try] block starts from. *)
Definition initialLogOptions (refs : list string) : LogOptions :=
  {| log_refNames := refs; log_shortStats := Some true;
     log_maxEntries := None; log_range := None; log_skip := None;
     log_silent := None; log_maxParents := None |}.

End GitCalls.

(** ** Further scenarios *)

Module Scenario2.

Import SCMHistoryViewModel.

(** A graph computation that gives every history item one output swimlane. *)
Definition laneHistory : ScmHistory :=
  {| historyItemGroupLocal := "scmGraph.historyItemGroupLocal";
     historyItemGroupRemote := "scmGraph.historyItemGroupRemote";
     historyItemGroupBase := "scmGraph.historyItemGroupBase";
     swimlanes := fun _ _ _ =>
       ([], [{| node_id := "next"; node_color := "scmGraph.historyItemGroupLocal" |}]) |}.

Definition resolved {A} (settled : Settled (list A)) : list A :=
  match settled with Resolved l => l | Rejected _ => [] end.

(** HEAD on the branch main, tracking origin/main; the merge base is
    upstream/main. *)
Definition headMain : GitStatus.Branch :=
  {| GitStatus.branch_type := GitStatus.Head;
     GitStatus.branch_name := Some "main";
     GitStatus.branch_commit := Some "c1";
     GitStatus.branch_remote := None;
     GitStatus.branch_upstream :=
       Some {| GitStatus.upstream_remote := "origin";
               GitStatus.upstream_name := "main";
               GitStatus.upstream_commit := Some "c3" |} |}.

Definition upstreamMain : GitStatus.Branch :=
  {| GitStatus.branch_type := GitStatus.RemoteHead;
     GitStatus.branch_name := Some "main";
     GitStatus.branch_commit := Some "c0";
     GitStatus.branch_remote := Some "upstream";
     GitStatus.branch_upstream := None |}.

Definition statusMain : GitStatus.Status :=
  {| GitStatus.HEAD := Some headMain;
     GitStatus.getBranchBase := fun _ => Resolved (Some upstreamMain);
     GitStatus.JSON_stringify := fun _ => "{}" |}.

Definition statusBroken : GitStatus.Status :=
  {| GitStatus.HEAD := Some headMain;
     GitStatus.getBranchBase := fun _ => Rejected "fatal: no branch base";
     GitStatus.JSON_stringify := fun _ => "{}" |}.

(** A detached HEAD. *)
Definition statusDetached : GitStatus.Status :=
  {| GitStatus.HEAD :=
       Some {| GitStatus.branch_type := GitStatus.Head;
               GitStatus.branch_name := None;
               GitStatus.branch_commit := Some "c2";
               GitStatus.branch_remote := None;
               GitStatus.branch_upstream := None |};
     GitStatus.getBranchBase := fun _ => Resolved (Some upstreamMain);
     GitStatus.JSON_stringify := fun _ => "{}" |}.

(** URIs as strings, statuses as their letters; a diff with two files. *)
Definition changesApi (diff : Settled (list (@GitChanges.Change string string)))
    : @GitChanges.Api string string :=
  {| GitChanges.with_query := fun u query => u +:+ "?" +:+ query;
     GitChanges.toString := fun u => u;
     GitChanges.toGitUri := fun u ref => "git:" +:+ u +:+ "?" +:+ ref;
     GitChanges.getStatusLetter := fun status => status;
     GitChanges.getStatusText := fun status => "status " +:+ status;
     GitChanges.getStatusColor := fun status => "color." +:+ status;
     GitChanges.getEmptyTree := Resolved "4b825dc6";
     GitChanges.diffTrees := fun _ _ => diff |}.

Definition twoChanges : list (@GitChanges.Change string string) :=
  [{| GitChanges.change_uri := "file:///a.txt";
      GitChanges.change_originalUri := "file:///a.txt";
      GitChanges.change_renameUri := None;
      GitChanges.change_status := "M" |};
   {| GitChanges.change_uri := "file:///b.txt";
      GitChanges.change_originalUri := "file:///old.txt";
      GitChanges.change_renameUri := Some "file:///b.txt";
      GitChanges.change_status := "R" |}].

Definition returnedChanges
    : list (@GitChanges.SourceControlHistoryItemChange string) :=
  resolved (GitChanges.provideHistoryItemChanges (changesApi (Resolved twoChanges))
              ∅ "c1" (Some "c2")).1.2.

(** A history provider of the workbench with one change for every history
    item, and the SCM provider that has it. *)
Definition historyOps (changes : option (list string))
    : SCMHistoryTree.HistoryProviderOps :=
  {| SCMHistoryTree.provideHistoryItemChanges := fun _ _ => Resolved changes;
     SCMHistoryTree.resolveHistoryItemGroupCommonAncestor := fun _ =>
       Resolved (Some "c3") |}.

Definition scmProvider (changes : option (list string))
    : SCMHistoryTree.ISCMProvider :=
  {| SCMHistoryTree.provider_id := "git0";
     SCMHistoryTree.provider_label := "Git";
     SCMHistoryTree.provider_rootUri_path := Some "/work/repo";
     SCMHistoryTree.provider_historyProvider := Some (historyOps changes) |}.

Definition rowOf (item : ISCMHistoryItem) : SCMHistoryItemViewModelTreeElement :=
  {| element_repository := 1;
     historyItemViewModel :=
       {| historyItem := item; inputSwimlanes := []; outputSwimlanes := [] |} |}.

Definition loadMoreRow : SCMHistoryTree.SCMHistoryItemLoadMoreTreeElement :=
  {| SCMHistoryTree.loadMore_repository := 1; SCMHistoryTree.graphColumns := [] |}.

Definition localize (key : string) (args : list string) : string :=
  key +:+ ":" +:+ String.concat "," args.

End Scenario2.
(** * Properties *)

(** ** JavaScript containers *)

Section Containers.

Context {V : Type}.
Implicit Types (m : JSMap V) (key : string) (value : V).

Lemma Map_get_set_eq key value m :
  Map_get key (Map_set key value m) = Some value.
Proof.
  induction m as [|[k v] m IH]; simpl.
  - by rewrite decide_True.
  - destruct (decide (k = key)) as [->|Hne]; simpl.
    + by rewrite decide_True.
    + by rewrite decide_False.
Qed.

Lemma Map_get_set_ne key key' value m :
  key ≠ key' -> Map_get key' (Map_set key value m) = Map_get key' m.
Proof.
  intros Hne. induction m as [|[k v] m IH]; simpl.
  - by rewrite decide_False.
  - destruct (decide (k = key)) as [->|Hk]; simpl.
    + by rewrite !decide_False.
    + destruct (decide (k = key')); [done | apply IH].
Qed.

Lemma Map_entries_of_set_ne key key' value m :
  key ≠ key' ->
  Map_entries_of key' (Map_set key value m) = Map_entries_of key' m.
Proof.
  intros Hne. unfold Map_entries_of.
  induction m as [|[k v] m IH]; cbn [Map_set].
  - rewrite filter_cons. cbn [fst]. by rewrite decide_False.
  - destruct (decide (k = key)) as [->|Hk].
    + rewrite !filter_cons. cbn [fst]. by rewrite !decide_False.
    + rewrite !filter_cons. cbn [fst]. by rewrite IH.
Qed.

(** A key that is absent gets one entry; a key that is present keeps the
    number of entries it has. *)
Lemma Map_entries_of_set_length key value m :
  length (Map_entries_of key (Map_set key value m))
  = max 1 (length (Map_entries_of key m)).
Proof.
  unfold Map_entries_of. induction m as [|[k v] m IH]; cbn [Map_set].
  - rewrite filter_cons. cbn [fst]. by rewrite decide_True.
  - destruct (decide (k = key)) as [->|Hk].
    + rewrite !filter_cons. cbn [fst]. rewrite !decide_True by done.
      cbn [length]. lia.
    + rewrite !filter_cons. cbn [fst]. rewrite !decide_False by done. apply IH.
Qed.

Lemma Map_wf_nil : Map_wf (V:=V) [].
Proof. intros key. unfold Map_entries_of. simpl. lia. Qed.

Lemma Map_wf_set key value m : Map_wf m -> Map_wf (Map_set key value m).
Proof.
  intros Hwf key'. destruct (decide (key = key')) as [->|Hne].
  - rewrite Map_entries_of_set_length. specialize (Hwf key'). lia.
  - rewrite Map_entries_of_set_ne by done. apply Hwf.
Qed.

Lemma Map_set_entries_of_one key value m :
  Map_wf m -> length (Map_entries_of key (Map_set key value m)) = 1.
Proof.
  intros Hwf. rewrite Map_entries_of_set_length. specialize (Hwf key). lia.
Qed.

End Containers.

Lemma Set_add_elem_of s x y : y ∈ Set_add s x ↔ y ∈ s ∨ y = x.
Proof.
  unfold Set_add. destruct (decide (x ∈ s)) as [Hin|Hnin].
  - split; [by left | intros [?| ->]; done].
  - rewrite elem_of_app, list_elem_of_singleton. done.
Qed.

Lemma Set_add_NoDup s x : NoDup s -> NoDup (Set_add s x).
Proof.
  intros Hs. unfold Set_add. destruct (decide (x ∈ s)) as [Hin|Hnin]; [done|].
  apply NoDup_app. split_and!; [done | | apply NoDup_singleton].
  intros y Hy ->%list_elem_of_singleton. done.
Qed.

Lemma fold_Set_add_spec xs s :
  NoDup s ->
  NoDup (fold_left Set_add xs s)
  ∧ ∀ y, y ∈ fold_left Set_add xs s ↔ y ∈ s ∨ y ∈ xs.
Proof.
  revert s. induction xs as [|x xs IH]; intros s Hs; simpl.
  - split; [done|]. intros y. rewrite elem_of_nil. tauto.
  - destruct (IH (Set_add s x) (Set_add_NoDup s x Hs)) as [Hnd Hiff].
    split; [done|]. intros y. rewrite Hiff, Set_add_elem_of, elem_of_cons. tauto.
Qed.

Lemma Set_new_NoDup xs : NoDup (Set_new xs).
Proof. apply (fold_Set_add_spec xs []), NoDup_nil_2. Qed.

Lemma Set_new_elem_of xs y : y ∈ Set_new xs ↔ y ∈ xs.
Proof.
  unfold Set_new.
  destruct (fold_Set_add_spec xs [] (NoDup_nil_2)) as [_ Hiff].
  rewrite Hiff, elem_of_nil. tauto.
Qed.

Lemma clamp_bounds value : (1 <= clamp value 1 1000 <= 1000)%Z.
Proof. unfold clamp. lia. Qed.

Lemma clamp_in_range value :
  (1 <= value <= 1000)%Z -> clamp value 1 1000 = value.
Proof. unfold clamp. lia. Qed.

(** ** The history view model *)

Module ViewModelFacts.

Import SCMHistoryViewModel.

Section Facts.

Context (scmHistory : ScmHistory).

Lemma toISCMHistoryItemViewModelArray_items historyItems colorMap :
  historyItem <$> toISCMHistoryItemViewModelArray scmHistory historyItems colorMap
  = historyItems.
Proof.
  unfold toISCMHistoryItemViewModelArray. rewrite fmap_imap.
  rewrite (imap_ext _ (const id)); [|done].
  by rewrite imap_const, list_fmap_id.
Qed.

Lemma treeElements_items vm repo group cached :
  shownItems (treeElements scmHistory vm repo group cached) = cached.
Proof.
  unfold shownItems, treeElements.
  rewrite <- list_fmap_compose.
  apply toISCMHistoryItemViewModelArray_items.
Qed.

Lemma treeElements_length vm repo group cached :
  length (treeElements scmHistory vm repo group cached) = length cached.
Proof.
  rewrite <- (treeElements_items vm repo group cached) at 2.
  unfold shownItems. by rewrite length_fmap.
Qed.

Lemma setLoadMore_filter repo flag vm :
  _historyItemGroupFilter (setLoadMore repo flag vm) = _historyItemGroupFilter vm.
Proof. unfold setLoadMore. by destruct (_state vm !! repo). Qed.

Lemma reachable_filter vm :
  reachable scmHistory vm -> _historyItemGroupFilter vm = FilterAuto.
Proof.
  induction 1 as [|host vm _ IH|repo flag vm _ IH|vm k response _ IH|repo vm _ IH].
  - done.
  - unfold clearRepositoryState. by destruct (repository host).
  - by rewrite setLoadMore_filter.
  - by destruct response.
  - done.
Qed.

(** A call of [getHistoryItems] that returns leaves the view model such that
    the next call returns the same list without asking the provider. *)
Lemma getHistoryItems_twice host vm elements vm1 calls :
  getHistoryItems scmHistory host vm = (Resolved elements, vm1, calls) ->
  getHistoryItems scmHistory host vm1 = (Resolved elements, vm1, []).
Proof.
  unfold getHistoryItems, getHistoryItems_begin.
  destruct (repository host) as [repo|]; [|by intros [= <- <- <-]].
  destruct (historyProvider host repo) as [provider|];
    destruct (_state vm !! repo) as [st|] eqn:Hst; cbn [resolveGroup providerGroup];
    try by intros [= <- <- <-].
  - destruct (loadMore st) eqn:Hmore.
    + cbn [suspend await_historyProvider await_options].
      destruct (provider_provideHistoryItems _ _) as [page|err];
        cbn [getHistoryItems_resume]; [|by intros [=]].
      intros [= <- <- <-]. cbn. rewrite lookup_insert_eq. cbn. done.
    + intros [= <- <- <-]. rewrite Hst. cbn. by rewrite Hmore.
  - destruct (provider_currentHistoryItemGroup provider) as [group|] eqn:Hgroup;
      [|intros [= <- <- <-]; rewrite Hst; cbn; by rewrite Hgroup].
    cbn [suspend await_historyProvider await_options].
    destruct (provider_provideHistoryItems _ _) as [page|err];
      cbn [getHistoryItems_resume]; [|by intros [=]].
    intros [= <- <- <-]. cbn. rewrite lookup_insert_eq. cbn. done.
Qed.

Lemma getGraphColorMap_wf vm group :
  Map_wf (_getGraphColorMap scmHistory vm group).
Proof.
  unfold _getGraphColorMap, Map_new. cbn [fold_left fst snd].
  destruct (group_remote group), (group_base group), (_historyItemGroupFilter vm);
    repeat apply Map_wf_set; apply Map_wf_nil.
Qed.

(** The write for the base comes after the write for the remote; the only
    write after it is the wildcard entry of the filter "all". *)
Lemma getGraphColorMap_base vm group base :
  group_base group = Some base ->
  (_historyItemGroupFilter vm = FilterAll -> ref_name base ≠ "*") ->
  length (Map_entries_of (ref_name base) (_getGraphColorMap scmHistory vm group)) = 1
  ∧ Map_get (ref_name base) (_getGraphColorMap scmHistory vm group)
    = Some (historyItemGroupBase scmHistory).
Proof.
  intros Hbase Hstar. unfold _getGraphColorMap. rewrite Hbase.
  set (colorMap := match group_remote group with
                   | Some remote => Map_set _ _ _
                   | None => _
                   end).
  assert (Map_wf colorMap) as Hwf.
  { subst colorMap. unfold Map_new. cbn [fold_left fst snd].
    destruct (group_remote group); repeat apply Map_wf_set; apply Map_wf_nil. }
  destruct (_historyItemGroupFilter vm) eqn:Hfilter.
  - assert ("*" ≠ ref_name base) as Hne by (intros Heq; by apply Hstar).
    rewrite Map_entries_of_set_ne, Map_get_set_ne by done.
    split; [by apply Map_set_entries_of_one | apply Map_get_set_eq].
  - split; [by apply Map_set_entries_of_one | apply Map_get_set_eq].
  - split; [by apply Map_set_entries_of_one | apply Map_get_set_eq].
Qed.


(** C2: with cached items of length N for the active repository, after
    [setLoadMore(repository, true)] the next [getHistoryItems] asks the
    provider once and, when the provider answers with a page, returns a list
    of length N plus the size of the page; its first N elements show the
    previously cached items, unchanged and in the same order, and the page
    follows them. *)
Theorem getHistoryItems_loadMore_appends host vm repo st provider page :
  repository host = Some repo ->
  _state vm !! repo = Some st ->
  historyProvider host repo = Some provider ->
  provider_provideHistoryItems provider (pageRequest host vm (items st))
    = Resolved page ->
  ∃ elements vm',
    getHistoryItems scmHistory host (setLoadMore repo true vm)
      = (Resolved elements, vm',
         [{| call_repository := repo;
             call_options := pageRequest host vm (items st) |}])
    ∧ length elements = length (items st) + length (default [] page)
    ∧ take (length (items st)) (shownItems elements) = items st
    ∧ shownItems elements = items st ++ default [] page
    ∧ cachedItems vm' repo = items st ++ default [] page.
Proof.
  intros Hrepo Hst Hprov Hpage.
  unfold getHistoryItems, getHistoryItems_begin.
  rewrite Hrepo, Hprov. unfold setLoadMore at 1 2. rewrite Hst.
  cbn [set_state _state]. rewrite lookup_insert_eq.
  unfold call_of, suspend.
  cbn -[pageRequest treeElements setLoadMore
        getHistoryItems_resume].
  assert (pageRequest host (setLoadMore repo true vm) (items st)
          = pageRequest host vm (items st)) as ->.
  { unfold pageRequest, historyItemGroupFilter. by rewrite setLoadMore_filter. }
  rewrite Hpage.
  cbn -[pageRequest treeElements setLoadMore].
  eexists _, _. split; [reflexivity|].
  rewrite treeElements_length, treeElements_items, length_app.
  split_and!; [done | by rewrite take_app_length | done |].
  unfold cachedItems. cbn [set_state _state]. by rewrite lookup_insert_eq.
Qed.

(** C6, as amended: when a history provider and a current history item group
    are resolvable for the active repository, the [getHistoryItems] call that
    follows [clearRepositoryState] makes exactly one provider call, and its
    [skip] is 0; when the provider or its current group is missing it makes
    no provider call and returns the empty list. *)
Theorem clearRepositoryState_refetch host vm repo :
  repository host = Some repo ->
  (∀ provider group,
     historyProvider host repo = Some provider ->
     provider_currentHistoryItemGroup provider = Some group ->
     refetchesFromZero scmHistory host vm)
  ∧ (providerGroup (historyProvider host repo) = None ->
     (getHistoryItems scmHistory host (clearRepositoryState host vm)).1.1 = Resolved []
     ∧ (getHistoryItems scmHistory host (clearRepositoryState host vm)).2 = []).
Proof.
  intros Hrepo.
  unfold refetchesFromZero, getHistoryItems,
    getHistoryItems_begin, clearRepositoryState.
  rewrite Hrepo. cbn [set_state _state]. rewrite lookup_delete_eq.
  cbn [resolveGroup]. split.
  - intros provider group -> Hgroup. cbn [providerGroup]. rewrite Hgroup.
    eexists. split; [reflexivity|]. done.
  - intros Hnone. destruct (historyProvider host repo); [|done].
    by rewrite Hnone.
Qed.

(** C7: every provider call made by [getHistoryItems] carries as limit the
    configured page size clamped to [1, 1000] and as skip the number of
    history items already cached for the repository. *)
Theorem getHistoryItems_request host vm call :
  call ∈ (getHistoryItems scmHistory host vm).2 ->
  limit (call_options call) = Some (LimitNumber (clamp (pageSize host) 1 1000))
  ∧ (1 <= clamp (pageSize host) 1 1000 <= 1000)%Z
  ∧ skip (call_options call)
    = Some (Z.of_nat (length (cachedItems vm (call_repository call)))).
Proof.
  unfold getHistoryItems, getHistoryItems_begin, cachedItems.
  destruct (repository host) as [repo|]; [|by intros ?%elem_of_nil].
  destruct (historyProvider host repo) as [provider|];
    [|by intros ?%elem_of_nil].
  destruct (_state vm !! repo) as [st|] eqn:Hst; cbn [resolveGroup providerGroup].
  - destruct (loadMore st); [|by intros ?%elem_of_nil].
    intros ->%list_elem_of_singleton. cbn. rewrite Hst.
    split; [done | split; [apply clamp_bounds | done]].
  - destruct (provider_currentHistoryItemGroup provider);
      [|by intros ?%elem_of_nil].
    intros ->%list_elem_of_singleton. cbn. rewrite Hst.
    split; [done | split; [apply clamp_bounds | done]].
Qed.

(** C8: when no history provider or no current history item group is
    resolvable for the active repository, [getHistoryItems] resolves to the
    empty list, makes no provider call and leaves the view model as it is. *)
Theorem getHistoryItems_unresolvable host vm :
  (∀ repo, repository host = Some repo ->
     historyProvider host repo = None
     ∨ resolveGroup (_state vm !! repo) (historyProvider host repo) = None) ->
  getHistoryItems scmHistory host vm = (Resolved [], vm, []).
Proof.
  intros Hnone.
  unfold getHistoryItems, getHistoryItems_begin.
  destruct (repository host) as [repo|] eqn:Hrepo; [|done].
  specialize (Hnone repo eq_refl).
  destruct (historyProvider host repo) as [provider|]; [|done].
  destruct Hnone as [? | ->]; done.
Qed.

(** C4: for a current history item group whose remote name and base name are
    the same string, the colour map of the view model has exactly one entry
    for that name, and its colour is the base colour: the write for the base
    has replaced the colour written for the remote. *)
Theorem colorMap_remote_base_same_name vm group remote base :
  reachable scmHistory vm ->
  group_remote group = Some remote ->
  group_base group = Some base ->
  ref_name remote = ref_name base ->
  length (Map_entries_of (ref_name base) (_getGraphColorMap scmHistory vm group)) = 1
  ∧ Map_get (ref_name base) (_getGraphColorMap scmHistory vm group)
    = Some (historyItemGroupBase scmHistory)
  ∧ Map_get (ref_name remote) (_getGraphColorMap scmHistory vm group)
    = Some (historyItemGroupBase scmHistory).
Proof.
  intros Hreach _ Hbase Hsame.
  destruct (getGraphColorMap_base vm group base Hbase) as [Hone Hcolor].
  { rewrite (reachable_filter vm Hreach). discriminate. }
  rewrite Hsame. done.
Qed.

End Facts.

End ViewModelFacts.

(** ** The Git history provider *)

Module GitFacts.

Import GitHistoryProvider.

Lemma logCalls_app trace trace' :
  logCalls (trace ++ trace') = logCalls trace ++ logCalls trace'.
Proof. unfold logCalls. apply omap_app. Qed.

Lemma loggedErrors_app trace trace' :
  loggedErrors (trace ++ trace') = loggedErrors trace ++ loggedErrors trace'.
Proof. unfold loggedErrors. apply omap_app. Qed.

(** The limit stage of [provideHistoryItems] calls no log and keeps the ref
    names. *)
Lemma limit_stage_refNames (r : Repository) (options : ISCMHistoryOptions)
    (base : LogOptions) :
  let stage :=
    match limit options with
    | None => ret (with_maxEntries 50 base)
    | Some (LimitNumber n) => ret (with_maxEntries n base)
    | Some (LimitItem (Some id)) =>
        commit <- call (CallGetCommit id) (getCommit r id) ;;
        commitParentId <-
          match parents commit with
          | parent :: _ => ret parent
          | [] => call CallGetEmptyTree (getEmptyTree r)
          end ;;
        ret (with_range (commitParentId +:+ "..") base)
    | Some (LimitItem None) => ret base
    end in
  logCalls stage.1 = []
  ∧ ∀ o, stage.2 = Resolved o -> log_refNames o = log_refNames base.
Proof.
  destruct (limit options) as [[n|[id|]]|]; cbn; try (split; [done|by intros o [= <-]]).
  unfold bind, call, ret.
  destruct (getCommit r id) as [commit|err]; [|by split].
  destruct (parents commit) as [|parent ?].
  - destruct (getEmptyTree r) as [tree|err]; cbn; [|by split].
    split; [done|by intros o [= <-]].
  - cbn. split; [done|by intros o [= <-]].
Qed.

(** Every log call of the [try] block carries the ref names it was given, and
    there is at most one. *)
Lemma provideHistoryItems_try_logCalls this options refNames :
  logCalls (provideHistoryItems_try this options refNames).1 = []
  ∨ ∃ o, logCalls (provideHistoryItems_try this options refNames).1 = [o]
         ∧ log_refNames o = refNames.
Proof.
  unfold provideHistoryItems_try.
  set (base := {| log_refNames := refNames; log_shortStats := Some true;
                  log_maxEntries := None; log_range := None; log_skip := None;
                  log_silent := None; log_maxParents := None |}).
  destruct (limit_stage_refNames (repo this) options base) as [Hnolog Hnames].
  cbv zeta in Hnolog, Hnames.
  destruct (match limit options with
            | Some (LimitNumber n) => _
            | Some (LimitItem (Some id)) => _
            | Some (LimitItem None) => _
            | None => _
            end) as [trace [o|err]]; cbn [fst snd] in *.
  - right. specialize (Hnames o eq_refl).
    unfold bind at 1. unfold bind, call, ret.
    set (final := with_silent true _).
    assert (log_refNames final = refNames) as Hfinal.
    { subst final. destruct (skip options); cbn; by rewrite Hnames. }
    exists final. split; [|done].
    destruct (log (repo this) final) as [commits|err];
      [destruct (ensureEmojis (repo this))|];
      cbn; rewrite !logCalls_app, Hnolog; done.
  - left. unfold bind. cbn. done.
Qed.

Lemma provideHistoryItems_try_logCalls_some this options refNames :
  (∀ id, limit options ≠ Some (LimitItem id)) ->
  ∃ o, logCalls (provideHistoryItems_try this options refNames).1 = [o].
Proof.
  intros Hlimit. unfold provideHistoryItems_try, bind, call, ret.
  destruct (limit options) as [[n|id]|]; [|by destruct (Hlimit id)|].
  - eexists. destruct (log _ _); [destruct (ensureEmojis _)|]; cbn; reflexivity.
  - eexists. destruct (log _ _); [destruct (ensureEmojis _)|]; cbn; reflexivity.
Qed.

Lemma provideHistoryItems_logCalls this options group ids :
  currentHistoryItemGroup this = Some group ->
  historyItemGroupIds options = Some ids ->
  logCalls (provideHistoryItems this options).1
  = logCalls (provideHistoryItems_try this options (Array_from_Set (Set_new ids))).1.
Proof.
  intros Hgroup Hids. unfold provideHistoryItems. rewrite Hgroup, Hids.
  unfold try_catch.
  destruct (provideHistoryItems_try _ _ _) as [trace [historyItems|err]]; [done|].
  cbn. rewrite logCalls_app. cbn. by rewrite app_nil_r.
Qed.

Lemma provideHistoryItems_no_group this options :
  currentHistoryItemGroup this = None ∨ historyItemGroupIds options = None ->
  provideHistoryItems this options = ([], Resolved []).
Proof.
  unfold provideHistoryItems. intros [-> | ->]; [done|].
  by destruct (currentHistoryItemGroup this).
Qed.

(** [provideHistoryItems] never rejects. *)
Lemma provideHistoryItems_resolves this options :
  ∃ historyItems, (provideHistoryItems this options).2 = Resolved historyItems.
Proof.
  unfold provideHistoryItems, try_catch.
  destruct (currentHistoryItemGroup this); [|by eexists].
  destruct (historyItemGroupIds options); [|by eexists].
  destruct (provideHistoryItems_try _ _ _) as [trace [historyItems|err]];
    by eexists.
Qed.

(** C9: [resolveHistoryItemGroupCommonAncestor] never rejects; when the
    resolution fails inside it, it resolves to [undefined] ("no ancestor") and
    the failure is written to the log. *)
Theorem resolveHistoryItemGroupCommonAncestor_no_throw this ids :
  (∃ ancestor,
     (resolveHistoryItemGroupCommonAncestor this ids).2 = Resolved ancestor)
  ∧ ∀ err,
      (resolveHistoryItemGroupCommonAncestor_try this ids).2 = Rejected err ->
      (resolveHistoryItemGroupCommonAncestor this ids).2 = Resolved None
      ∧ ("[GitHistoryProvider][resolveHistoryItemGroupCommonAncestor] Failed to resolve common ancestor for "
         +:+ String.concat "," ids +:+ ": " +:+ err)
        ∈ loggedErrors (resolveHistoryItemGroupCommonAncestor this ids).1.
Proof.
  unfold resolveHistoryItemGroupCommonAncestor, try_catch.
  destruct (resolveHistoryItemGroupCommonAncestor_try this ids)
    as [trace [ancestor|failure]]; cbn.
  - split; [by eexists | by intros err [=]].
  - split; [by eexists|]. intros err [= ->]. split; [done|].
    rewrite loggedErrors_app. apply elem_of_app. right. cbn. by left.
Qed.

(** C10: the ref names handed to the repository log by [provideHistoryItems]
    contain every requested history item group id exactly once and nothing
    else, whatever duplicates the requested list has; with a current group and
    a limit that is a number or absent, the log is called once. *)
Theorem provideHistoryItems_refNames this options ids :
  historyItemGroupIds options = Some ids ->
  (∀ o, o ∈ logCalls (provideHistoryItems this options).1 ->
     (∀ id, id ∈ ids -> count_occ String.string_dec (log_refNames o) id = 1)
     ∧ (∀ id, id ∈ log_refNames o -> id ∈ ids))
  ∧ (is_Some (currentHistoryItemGroup this) ->
     (∀ id, limit options ≠ Some (LimitItem id)) ->
     ∃ o, logCalls (provideHistoryItems this options).1 = [o]).
Proof.
  intros Hids.
  destruct (currentHistoryItemGroup this) as [group|] eqn:Hgroup.
  - rewrite (provideHistoryItems_logCalls this options group ids Hgroup Hids).
    split.
    + intros o Ho.
      destruct (provideHistoryItems_try_logCalls this options
                  (Array_from_Set (Set_new ids))) as [Hnone | [o' [Hone Hnames]]].
      { rewrite Hnone in Ho. by apply elem_of_nil in Ho. }
      rewrite Hone in Ho. apply list_elem_of_singleton in Ho as ->.
      rewrite Hnames. unfold Array_from_Set. split.
      * intros id Hid. apply NoDup_count_occ'.
        -- apply NoDup_ListNoDup, Set_new_NoDup.
        -- apply list_elem_of_In, Set_new_elem_of, Hid.
      * intros id. apply Set_new_elem_of.
    + intros _ Hlimit. by apply provideHistoryItems_try_logCalls_some.
  - rewrite provideHistoryItems_no_group by (by left). cbn.
    split; [by intros o ?%elem_of_nil | by intros [? [=]]].
Qed.

End GitFacts.

(** ** Provider failures *)

Module ProviderFailure.

Import SCMHistoryViewModel.

(** C3, as amended: when the promise of the provider's [provideHistoryItems]
    rejects, [getHistoryItems] rejects with the same error, after that one
    provider call and with the view model as it was. The Git history provider
    does not reject: when its log (or commit lookup) fails it writes the
    failure to its log and resolves to the empty list, which the view receives
    as an empty page. *)
Theorem provider_failure (scmHistory : ScmHistory) (host : Host) (vm : ViewModel)
    (git : GitHistoryProvider.Provider) (options : ISCMHistoryOptions) :
  (∀ k err,
     getHistoryItems_begin scmHistory host vm = inr k ->
     provider_provideHistoryItems (await_historyProvider k) (await_options k)
       = Rejected err ->
     getHistoryItems scmHistory host vm = (Rejected err, vm, [call_of k]))
  ∧ (∀ group ids err,
       GitHistoryProvider.currentHistoryItemGroup git = Some group ->
       historyItemGroupIds options = Some ids ->
       (GitHistoryProvider.provideHistoryItems_try git options
          (Array_from_Set (Set_new ids))).2 = Rejected err ->
       (GitHistoryProvider.provideHistoryItems git options).2 = Resolved []
       ∧ provider_provideHistoryItems (GitHistoryProvider.asHistoryProvider git)
           options = Resolved (Some [])
       ∧ ("[GitHistoryProvider][provideHistoryItems] Failed to get history items with options '"
          +:+ GitHistoryProvider.JSON_stringify (GitHistoryProvider.repo git) options
          +:+ "': " +:+ err)
         ∈ GitHistoryProvider.loggedErrors
             (GitHistoryProvider.provideHistoryItems git options).1).
Proof.
  split.
  - intros k err Hbegin Hreject.
    unfold getHistoryItems. rewrite Hbegin, Hreject. done.
  - intros group ids err Hgroup Hids.
    unfold GitHistoryProvider.asHistoryProvider.
    cbn [provider_provideHistoryItems].
    unfold GitHistoryProvider.provideHistoryItems, GitHistoryProvider.try_catch.
    rewrite Hgroup, Hids.
    destruct (GitHistoryProvider.provideHistoryItems_try _ _ _)
      as [trace [historyItems|failure]]; cbn; [by intros [=]|].
    intros [= ->]. split; [reflexivity|]. split; [reflexivity|].
    rewrite omap_app. apply elem_of_app. right. cbn. by left.
Qed.

End ProviderFailure.

(** ** The load-more continuation *)

Module PaneFacts.

Import SCMHistoryViewModel SCMHistoryViewPane.

Section Facts.

Context (scmHistory : ScmHistory) (host : Host).

(** A body that starts on a pane at rest, for the active repository with a
    provider and cached state, reaches the provider. *)
Lemma loadMore_reaches_provider p repo rest provider st :
  running p = None -> _repositoryLoadMore p = false -> queued p = repo :: rest ->
  repository host = Some repo ->
  historyProvider host repo = Some provider ->
  _state (_treeViewModel p) !! repo = Some st ->
  let p' := run scmHistory host [SequencerStartsNext; TreeAsksChildren] p in
  ∃ k,
    running p' = Some (repo, AwaitProvider k)
    ∧ await_repository k = repo
    ∧ await_existingHistoryItems k = items st
    ∧ await_currentHistoryItemGroup k = currentHistoryItemGroup st
    ∧ skip (await_options k) = Some (Z.of_nat (length (items st)))
    ∧ providerCalls p' = providerCalls p ++ [call_of k]
    ∧ _treeViewModel p' = setLoadMore repo true (_treeViewModel p)
    ∧ queued p' = rest
    ∧ outcomes p' = outcomes p
    ∧ _repositoryLoadMore p' = true.
Proof.
  intros Hrun Hflag Hqueue Hrepo Hprov Hst. cbn zeta.
  assert (step scmHistory host p SequencerStartsNext
          = {| _treeViewModel := setLoadMore repo true (_treeViewModel p);
               _repositoryLoadMore := true;
               queued := rest; running := Some (repo, AwaitUpdateChildren);
               providerCalls := providerCalls p;
               outcomes := outcomes p |}) as Hstart.
  { unfold step. rewrite Hrun, Hqueue. unfold startBody. by rewrite Hflag. }
  cbn [run fold_left]. rewrite Hstart.
  unfold step. cbn [running _treeViewModel].
  unfold getHistoryItems_begin. rewrite Hrepo, Hprov.
  unfold setLoadMore. rewrite Hst. cbn [_state set_state].
  rewrite lookup_insert_eq. cbn. eexists. split_and!; reflexivity.
Qed.

(** C5, on the code: [_loadMoreCallback] is called for [repo], the active
    repository with a provider and cached state, and called again while the
    fetch of the first call is outstanding. The second call is not a no-op.
    Its body is queued behind the first, which resets [_repositoryLoadMore]
    when it ends; the guard of the second body therefore reads [false], the
    body marks [repo] for load-more again and its update calls the provider
    a second time, skipping the items cached by then. Two provider calls are
    made where the specification promises one. *)
Theorem loadMore_second_invocation_fetches (vm : ViewModel)
    (repo : ISCMRepository) (provider : ISCMHistoryProvider)
    (st : HistoryItemState) (page : option (list ISCMHistoryItem)) :
  repository host = Some repo ->
  historyProvider host repo = Some provider ->
  _state vm !! repo = Some st ->
  let p :=
    run scmHistory host
      [InvokeLoadMore repo; SequencerStartsNext; TreeAsksChildren;
       InvokeLoadMore repo;
       ProviderResolves page; SequencerStartsNext; TreeAsksChildren]
      (idle vm) in
  outcomes p = [Loaded repo]
  ∧ (∃ k, running p = Some (repo, AwaitProvider k))
  ∧ (∃ first second,
       providerCalls p = [first; second]
       ∧ call_repository first = repo
       ∧ call_repository second = repo
       ∧ skip (call_options first) = Some (Z.of_nat (length (items st)))
       ∧ skip (call_options second)
         = Some (Z.of_nat (length (items st ++ default [] page))))
  ∧ ¬ singleFlight scmHistory host vm repo.
Proof.
  intros Hrepo Hprov Hst p.
  set (p1 := run scmHistory host [InvokeLoadMore repo] (idle vm)).
  set (p3 := run scmHistory host [SequencerStartsNext; TreeAsksChildren] p1).
  set (p5 := run scmHistory host [InvokeLoadMore repo; ProviderResolves page] p3).
  assert (p = run scmHistory host [SequencerStartsNext; TreeAsksChildren] p5)
    as Hp by reflexivity.
  destruct (loadMore_reaches_provider p1 repo [] provider st)
    as (k1 & Hrun1 & Hk1 & Hitems1 & Hgroup1 & Hskip1 & Hcalls1 & Hvm1
        & Hqueue1 & Hout1 & Hflag1); [done..|].
  cbn zeta in *. fold p3 in Hrun1, Hcalls1, Hvm1, Hqueue1, Hout1, Hflag1.
  change (providerCalls p1) with (@nil ProviderCall) in Hcalls1.
  change (outcomes p1) with (@nil Outcome) in Hout1.
  clearbody p3. clear p1 Hvm1.
  assert (running p5 = None ∧ _repositoryLoadMore p5 = false
          ∧ queued p5 = [repo]
          ∧ outcomes p5 = [Loaded repo]
          ∧ providerCalls p5 = [call_of k1]
          ∧ ∃ st5, _state (_treeViewModel p5) !! repo = Some st5
                   ∧ items st5 = items st ++ default [] page) as Hp5.
  { unfold p5. cbn [run fold_left]. unfold step at 2.
    unfold step. cbn [running queued]. rewrite Hrun1.
    unfold finishBody. cbn.
    rewrite Hqueue1, Hout1, Hcalls1, Hk1, Hitems1.
    split_and!; [done..|]. rewrite lookup_insert_eq. by eexists. }
  destruct Hp5 as (Hrun5 & Hflag5 & Hqueue5 & Hout5 & Hcalls5 & st5 & Hst5 & Hitems5).
  clearbody p5.
  destruct (loadMore_reaches_provider p5 repo [] provider st5)
    as (k2 & Hrun2 & Hk2 & Hitems2 & _ & Hskip2 & Hcalls2 & _ & _ & Hout2 & _);
    [done..|].
  cbn zeta in *. rewrite <- Hp in Hrun2, Hcalls2, Hout2.
  assert (providerCalls p = [call_of k1; call_of k2]) as Hcalls
    by (by rewrite Hcalls2, Hcalls5).
  split_and!.
  - by rewrite Hout2.
  - by exists k2.
  - exists (call_of k1), (call_of k2). rewrite <- Hitems5.
    by split_and!.
  - intros Hclaim.
    specialize (Hclaim [ProviderResolves page; SequencerStartsNext; TreeAsksChildren]).
    assert (Forall (fun e => ∀ r, e ≠ InvokeLoadMore r)
              [ProviderResolves page; SequencerStartsNext; TreeAsksChildren])
      as Hlater by (repeat constructor; discriminate).
    specialize (Hclaim Hlater).
    change (length (providerCalls p) ≤ 1) in Hclaim.
    rewrite Hcalls in Hclaim. cbn in Hclaim. lia.
Qed.

End Facts.

End PaneFacts.

(** ** The properties on the repository with three commits *)

Module ScenarioFacts.

Import SCMHistoryViewModel SCMHistoryViewPane Scenario.

(** The end-to-end example of the specification: page size 2, the first call
    fetches c1 and c2 with skip 0, the call after [setLoadMore] fetches c3
    with skip 2, and the cache holds c1, c2, c3. *)
Example end_to_end :
  let first := getHistoryItems scmHistory host new_ViewModel in
  let second := getHistoryItems scmHistory host (setLoadMore 1 true first.1.2) in
  (shownItems <$> (match first.1.1 with Resolved l => Some l | _ => None end))
    = Some [c1; c2]
  ∧ call_options <$> first.2
    = [{| historyItemGroupIds := Some ["c1"; "c3"; "c3"];
          limit := Some (LimitNumber 2); skip := Some 0%Z |}]
  ∧ call_options <$> second.2
    = [{| historyItemGroupIds := Some ["c1"; "c3"; "c3"];
          limit := Some (LimitNumber 2); skip := Some 2%Z |}]
  ∧ cachedItems second.1.2 1 = [c1; c2; c3].
Proof. vm_compute. done. Qed.


Lemma getHistoryItems_loadMore_appends_witness :
  ∃ elements vm',
    getHistoryItems scmHistory host (setLoadMore 1 true cachedViewModel)
      = (Resolved elements, vm',
         [{| call_repository := 1;
             call_options := pageRequest host cachedViewModel (items cached) |}])
    ∧ length elements = length (items cached) + length (default [] (Some [c3]))
    ∧ take (length (items cached)) (shownItems elements) = items cached
    ∧ shownItems elements = items cached ++ default [] (Some [c3])
    ∧ cachedItems vm' 1 = items cached ++ default [] (Some [c3]).
Proof.
  apply (ViewModelFacts.getHistoryItems_loadMore_appends scmHistory host
           cachedViewModel 1 cached pagingProvider (Some [c3])); reflexivity.
Defined.

Lemma clearRepositoryState_refetch_witness :
  refetchesFromZero scmHistory host cachedViewModel.
Proof.
  apply (proj1 (ViewModelFacts.clearRepositoryState_refetch scmHistory host
                  cachedViewModel 1 eq_refl) pagingProvider main); reflexivity.
Defined.

(** With a provider that has no current history item group, the call after
    [clearRepositoryState] makes no provider call. *)
Lemma clearRepositoryState_detached :
  ¬ refetchesFromZero scmHistory (hostOf (Some detachedProvider)) cachedViewModel.
Proof. intros [call [Hcalls _]]. vm_compute in Hcalls. discriminate. Qed.

Lemma getHistoryItems_request_witness :
  let call := {| call_repository := 1; call_options := firstRequest |} in
  limit (call_options call) = Some (LimitNumber (clamp (pageSize host) 1 1000))
  ∧ (1 <= clamp (pageSize host) 1 1000 <= 1000)%Z
  ∧ skip (call_options call)
    = Some (Z.of_nat (length (cachedItems new_ViewModel (call_repository call)))).
Proof.
  apply (ViewModelFacts.getHistoryItems_request scmHistory host new_ViewModel).
  vm_compute. apply list_elem_of_here.
Defined.

Lemma getHistoryItems_unresolvable_witness :
  getHistoryItems scmHistory (hostOf None) cachedViewModel
  = (Resolved [], cachedViewModel, []).
Proof.
  apply (ViewModelFacts.getHistoryItems_unresolvable scmHistory (hostOf None)
           cachedViewModel).
  intros repo [= <-]. left. reflexivity.
Defined.

Lemma colorMap_remote_base_same_name_witness :
  length (Map_entries_of "origin/main"
            (_getGraphColorMap scmHistory new_ViewModel main)) = 1
  ∧ Map_get "origin/main" (_getGraphColorMap scmHistory new_ViewModel main)
    = Some "scmGraph.historyItemGroupBase"
  ∧ Map_get "origin/main" (_getGraphColorMap scmHistory new_ViewModel main)
    = Some "scmGraph.historyItemGroupBase".
Proof.
  apply (ViewModelFacts.colorMap_remote_base_same_name scmHistory new_ViewModel
           main originMain originMain);
    [apply reachable_new | reflexivity | reflexivity | reflexivity].
Defined.

Lemma provider_failure_witness :
  getHistoryItems scmHistory (hostOf (Some offlineProvider)) new_ViewModel
  = (Rejected "offline", new_ViewModel,
     [call_of (suspend (hostOf (Some offlineProvider)) new_ViewModel 1
                 offlineProvider main [])]).
Proof.
  apply (proj1 (ProviderFailure.provider_failure scmHistory
                  (hostOf (Some offlineProvider)) new_ViewModel brokenGit
                  firstRequest)
           (suspend (hostOf (Some offlineProvider)) new_ViewModel 1
              offlineProvider main [])
           "offline"); reflexivity.
Defined.

(** The log of the Git repository fails, and [getHistoryItems] resolves. *)
Lemma git_failure_not_propagated :
  ¬ GitHistoryView.failurePropagates scmHistory brokenGit brokenGitHost
      new_ViewModel.
Proof.
  intros Hclaim.
  specialize (Hclaim
    {| call_repository := 1;
       call_options := pageRequest brokenGitHost new_ViewModel [] |}
    ["c1"; "c3"; "c3"] "fatal: bad revision").
  assert ((getHistoryItems scmHistory brokenGitHost new_ViewModel).1.1
          = Rejected "fatal: bad revision") as Hrejected.
  { apply Hclaim; [vm_compute; apply list_elem_of_here | reflexivity..]. }
  vm_compute in Hrejected. discriminate.
Qed.

Lemma resolveHistoryItemGroupCommonAncestor_no_throw_witness :
  (GitHistoryProvider.resolveHistoryItemGroupCommonAncestor brokenGit
     ["refs/heads/main"]).2 = Resolved None
  ∧ ("[GitHistoryProvider][resolveHistoryItemGroupCommonAncestor] Failed to resolve common ancestor for "
     +:+ String.concat "," ["refs/heads/main"] +:+ ": " +:+ "fatal: no merge base")
    ∈ GitHistoryProvider.loggedErrors
        (GitHistoryProvider.resolveHistoryItemGroupCommonAncestor brokenGit
           ["refs/heads/main"]).1.
Proof.
  apply (proj2 (GitFacts.resolveHistoryItemGroupCommonAncestor_no_throw brokenGit
                  ["refs/heads/main"]) "fatal: no merge base").
  reflexivity.
Defined.

Lemma provideHistoryItems_refNames_witness :
  ∃ o, GitHistoryProvider.logCalls
         (GitHistoryProvider.provideHistoryItems workingGit firstRequest).1 = [o].
Proof.
  apply (proj2 (GitFacts.provideHistoryItems_refNames workingGit firstRequest
                  ["c1"; "c3"; "c3"] eq_refl)).
  - exists main. reflexivity.
  - intros id. discriminate.
Defined.

(** The ref names of that log call: c1 and c3, once each. *)
Example provideHistoryItems_refNames_example :
  GitHistoryProvider.log_refNames
  <$> GitHistoryProvider.logCalls
        (GitHistoryProvider.provideHistoryItems workingGit firstRequest).1
  = [["c1"; "c3"]].
Proof. reflexivity. Qed.

(** Two load-more invocations for repository 1, the second while the fetch
    of the first is outstanding: two provider calls, with skip 2 and skip 3,
    and two bodies that ran to their end. *)
Example loadMore_twice_run :
  let final :=
    run scmHistory host
      [InvokeLoadMore 1; SequencerStartsNext; TreeAsksChildren;
       InvokeLoadMore 1;
       ProviderResolves (Some [c3]); SequencerStartsNext; TreeAsksChildren;
       ProviderResolves (Some [])]
      (idle cachedViewModel) in
  (fun call => skip (call_options call)) <$> providerCalls final
    = [Some 2%Z; Some 3%Z]
  ∧ outcomes final = [Loaded 1; Loaded 1]
  ∧ cachedItems (_treeViewModel final) 1 = [c1; c2; c3]
  ∧ _repositoryLoadMore final = false.
Proof. vm_compute. done. Qed.

(** The same two invocations when the fetch of the first is rejected: the
    flag stays set, and the second body returns at the guard. *)
Example loadMore_rejected_run :
  let final :=
    run scmHistory host
      [InvokeLoadMore 1; SequencerStartsNext; TreeAsksChildren;
       InvokeLoadMore 1;
       ProviderRejects "offline"; SequencerStartsNext; TreeAsksChildren]
      (idle cachedViewModel) in
  (fun call => skip (call_options call)) <$> providerCalls final = [Some 2%Z]
  ∧ outcomes final = [Failed 1 "offline"; ReturnedAtGuard 1]
  ∧ cachedItems (_treeViewModel final) 1 = [c1; c2]
  ∧ _repositoryLoadMore final = true.
Proof. vm_compute. done. Qed.

Lemma loadMore_second_invocation_fetches_witness :
  ∃ first second,
    providerCalls
      (run scmHistory host
         [InvokeLoadMore 1; SequencerStartsNext; TreeAsksChildren;
          InvokeLoadMore 1;
          ProviderResolves (Some [c3]); SequencerStartsNext; TreeAsksChildren]
         (idle cachedViewModel))
    = [first; second]
    ∧ call_repository first = 1
    ∧ call_repository second = 1
    ∧ skip (call_options first) = Some (Z.of_nat (length (items cached)))
    ∧ skip (call_options second)
      = Some (Z.of_nat (length (items cached ++ default [] (Some [c3])))).
Proof.
  refine (proj1 (proj2 (proj2
            (PaneFacts.loadMore_second_invocation_fetches scmHistory host
               cachedViewModel 1 pagingProvider cached (Some [c3]) _ _ _))));
    reflexivity.
Defined.

End ScenarioFacts.

(** * Further properties of the sources *)

(** ** The history view model: what a call does to the cache *)

Module ViewModelMore.

Import SCMHistoryViewModel.

Section Facts.

Context (scmHistory : ScmHistory).

(** Where [getHistoryItems] suspends, and with which locals. *)
Lemma getHistoryItems_begin_suspended host vm k :
  getHistoryItems_begin scmHistory host vm = inr k ->
  ∃ repo provider group,
    repository host = Some repo
    ∧ historyProvider host repo = Some provider
    ∧ resolveGroup (_state vm !! repo) (Some provider) = Some group
    ∧ k = suspend host vm repo provider group (cachedItems vm repo)
    ∧ (∀ st, _state vm !! repo = Some st -> loadMore st = true).
Proof.
  unfold getHistoryItems_begin, cachedItems.
  destruct (repository host) as [repo|] eqn:Hrepo; [|done].
  destruct (historyProvider host repo) as [provider|] eqn:Hprov; [|done].
  destruct (resolveGroup _ _) as [group|] eqn:Hgroup; [|done].
  destruct (_state vm !! repo) as [st|] eqn:Hst.
  - destruct (loadMore st) eqn:Hmore; [|done].
    intros [= <-]. exists repo, provider, group.
    rewrite Hst. split_and!; [done..|]. by intros ? [= <-].
  - intros [= <-]. exists repo, provider, group.
    rewrite Hst. split_and!; done.
Qed.

(** The outcomes of a call: a return without fetch, a rejected fetch, or a
    fetched page stored behind the cached items. *)
Lemma getHistoryItems_outcomes host vm r vm' calls :
  getHistoryItems scmHistory host vm = (r, vm', calls) ->
  (vm' = vm ∧ calls = [] ∧ ∃ elements, r = Resolved elements)
  ∨ ∃ repo provider group,
      repository host = Some repo
      ∧ historyProvider host repo = Some provider
      ∧ resolveGroup (_state vm !! repo) (Some provider) = Some group
      ∧ calls = [{| call_repository := repo;
                    call_options := pageRequest host vm (cachedItems vm repo) |}]
      ∧ ((∃ err, r = Rejected err ∧ vm' = vm)
         ∨ ∃ page elements,
             r = Resolved elements
             ∧ vm' = set_state vm
                       (insert repo
                          {| currentHistoryItemGroup := group;
                             items := cachedItems vm repo ++ page;
                             loadMore := false |})).
Proof.
  unfold getHistoryItems.
  destruct (getHistoryItems_begin scmHistory host vm) as [elements|k] eqn:Hbegin.
  - intros [= <- <- <-]. left. eauto.
  - destruct (getHistoryItems_begin_suspended host vm k Hbegin)
      as (repo & provider & group & Hrepo & Hprov & Hgroup & -> & _).
    intros [= Hresume <-]. right. exists repo, provider, group.
    split_and!; try done.
    cbn [suspend await_historyProvider await_options] in Hresume.
    destruct (provider_provideHistoryItems provider _) as [page|err].
    + right. cbn in Hresume. injection Hresume as <- <-. eauto.
    + left. cbn in Hresume. injection Hresume as <- <-. eauto.
Qed.

(** X1: a call of [getHistoryItems] writes at most the cache entry of the
    active repository; [setLoadMore] writes at most the entry of its
    argument; [clearRepositoryState] removes at most the entry of the active
    repository. *)
Theorem cache_frame host vm repo other flag :
  (repository host ≠ Some other ->
   _state (getHistoryItems scmHistory host vm).1.2 !! other = _state vm !! other
   ∧ _state (clearRepositoryState host vm) !! other = _state vm !! other)
  ∧ (repo ≠ other ->
     _state (setLoadMore repo flag vm) !! other = _state vm !! other).
Proof.
  split.
  - intros Hother. split.
    + destruct (getHistoryItems scmHistory host vm) as [[r vm'] calls] eqn:Hcall.
      apply getHistoryItems_outcomes in Hcall
        as [(-> & _) | (active & provider & group & Hrepo & _ & _ & _ & Hvm)];
        [done|].
      cbn [fst snd].
      destruct Hvm as [(err & _ & ->) | (page & elements & _ & ->)]; [done|].
      cbn [set_state _state]. apply lookup_insert_ne. congruence.
    + unfold clearRepositoryState.
      destruct (repository host) as [active|]; [|done].
      cbn [set_state _state]. apply lookup_delete_ne. congruence.
  - intros Hne. unfold setLoadMore.
    destruct (_state vm !! repo); [|done].
    cbn [set_state _state]. by apply lookup_insert_ne.
Qed.

(** X2: whatever the outcome of a call of [getHistoryItems], the items cached
    for a repository before the call are a prefix of the items cached for it
    after the call: a page is only ever appended. *)
Theorem getHistoryItems_cache_grows host vm repo :
  cachedItems vm repo
  `prefix_of` cachedItems (getHistoryItems scmHistory host vm).1.2 repo.
Proof.
  destruct (getHistoryItems scmHistory host vm) as [[r vm'] calls] eqn:Hcall.
  apply getHistoryItems_outcomes in Hcall
    as [(-> & _) | (active & provider & group & Hrepo & _ & _ & _ & Hvm)];
    [done|].
  cbn [fst snd].
  destruct Hvm as [(err & _ & ->) | (page & elements & _ & ->)]; [done|].
  unfold cachedItems at 2. cbn [set_state _state].
  destruct (decide (active = repo)) as [->|Hne].
  - rewrite lookup_insert_eq. cbn. by apply prefix_app_r.
  - rewrite lookup_insert_ne by done. done.
Qed.

(** X3: the history item group cached for a repository is a snapshot: a call
    of [getHistoryItems] keeps the cache entry of every repository that has
    one, with the group it had, whatever the provider reports as its current
    group by then. *)
Theorem getHistoryItems_group_snapshot host vm repo st :
  _state vm !! repo = Some st ->
  ∃ st',
    _state (getHistoryItems scmHistory host vm).1.2 !! repo = Some st'
    ∧ currentHistoryItemGroup st' = currentHistoryItemGroup st.
Proof.
  intros Hst.
  destruct (getHistoryItems scmHistory host vm) as [[r vm'] calls] eqn:Hcall.
  apply getHistoryItems_outcomes in Hcall
    as [(-> & _) | (active & provider & group & Hrepo & _ & Hgroup & _ & Hvm)];
    [by eauto|].
  cbn [fst snd].
  destruct Hvm as [(err & _ & ->) | (page & elements & _ & ->)]; [by eauto|].
  cbn [set_state _state].
  destruct (decide (active = repo)) as [->|Hne].
  - rewrite lookup_insert_eq. eexists. split; [done|]. cbn.
    rewrite Hst in Hgroup. cbn in Hgroup. congruence.
  - rewrite lookup_insert_ne by done. eauto.
Qed.

(** X4: a call of [getHistoryItems] that rejects has made one provider call
    and has left the view model as it was, load-more mark included, so that
    the next call makes the same request again. *)
Theorem getHistoryItems_rejected_retries host vm err vm' calls :
  getHistoryItems scmHistory host vm = (Rejected err, vm', calls) ->
  vm' = vm
  ∧ length calls = 1
  ∧ (getHistoryItems scmHistory host vm').2 = calls.
Proof.
  intros Hcall. pose proof Hcall as Hcases.
  apply getHistoryItems_outcomes in Hcases
    as [(_ & _ & ? & [=]) | (active & provider & group & _ & _ & _ & -> & Hvm)].
  destruct Hvm as [(? & _ & ->) | (? & ? & [=] & _)].
  split_and!; [done..|]. by rewrite Hcall.
Qed.

(** X5: for a view model the class can be in, the ids sent with a fetch are
    exactly those of the provider's current group, in this order: its
    revision (or id), then the revision (or id) of its remote when it has
    one, then the revision (or id) of its base when it has one, so one to
    three ids; and none at all when the active repository has no provider or
    the provider no current group. *)
Theorem historyItemGroupFilter_auto host vm :
  reachable scmHistory vm ->
  match providerGroup (activeProvider host) with
  | None => historyItemGroupFilter host vm = []
  | Some group =>
      historyItemGroupFilter host vm
      = default (group_id group) (group_revision group)
        :: option_list
             ((fun remote => default (ref_id remote) (ref_revision remote))
              <$> group_remote group)
        ++ option_list
             ((fun base => default (ref_id base) (ref_revision base))
              <$> group_base group)
      ∧ 1 ≤ length (historyItemGroupFilter host vm) ≤ 3
      ∧ length (historyItemGroupFilter host vm)
        = 1 + length (option_list (group_remote group))
            + length (option_list (group_base group))
  end.
Proof.
  intros Hreach. unfold historyItemGroupFilter.
  rewrite (ViewModelFacts.reachable_filter scmHistory vm Hreach).
  destruct (providerGroup (activeProvider host)) as [group|]; [|done].
  destruct (group_remote group), (group_base group); cbn; split_and!; try done; lia.
Qed.

Lemma setLoadMore_cachedItems repo flag vm other :
  cachedItems (setLoadMore repo flag vm) other = cachedItems vm other.
Proof.
  unfold setLoadMore, cachedItems.
  destruct (_state vm !! repo) as [st|] eqn:Hst; [|done].
  cbn [set_state _state].
  destruct (decide (repo = other)) as [<-|Hne].
  - by rewrite lookup_insert_eq, Hst.
  - by rewrite lookup_insert_ne.
Qed.

(** X6: [setLoadMore] never creates a cache entry and never changes the
    cached items or the cached group; of two marks in a row the last one
    counts. *)
Theorem setLoadMore_marks_only repo flag flag' vm other :
  cachedItems (setLoadMore repo flag vm) other = cachedItems vm other
  ∧ (currentHistoryItemGroup <$> _state (setLoadMore repo flag vm) !! other)
    = (currentHistoryItemGroup <$> _state vm !! other)
  ∧ (_state vm !! repo = None -> setLoadMore repo flag vm = vm)
  ∧ setLoadMore repo flag' (setLoadMore repo flag vm) = setLoadMore repo flag' vm.
Proof.
  unfold setLoadMore, cachedItems.
  destruct (_state vm !! repo) as [st|] eqn:Hst.
  - cbn [set_state _state]. rewrite lookup_insert_eq.
    split_and!.
    + pose proof (setLoadMore_cachedItems repo flag vm other) as Hitems.
      unfold setLoadMore, cachedItems in Hitems. by rewrite Hst in Hitems.
    + destruct (decide (repo = other)) as [<-|Hne].
      * by rewrite lookup_insert_eq, Hst.
      * by rewrite lookup_insert_ne.
    + done.
    + cbn. unfold set_state. cbn. by rewrite insert_insert_eq.
  - rewrite Hst. done.
Qed.

End Facts.

End ViewModelMore.

(** ** The load-more continuation: the guard, and the cache *)

Module PaneMore.

Import SCMHistoryViewModel SCMHistoryViewPane PaneCount.

Section Facts.

Context (scmHistory : ScmHistory) (host : Host).

Lemma failed_later p p' outs :
  outcomes p' = outcomes p ++ outs -> failed p -> failed p'.
Proof.
  intros Hout (repo & err & Hin). exists repo, err.
  rewrite Hout. apply elem_of_app. by left.
Qed.

Lemma failed_loaded p p' repo :
  outcomes p' = outcomes p ++ [Loaded repo] -> failed p' -> failed p.
Proof.
  intros Hout (r & err & Hin). exists r, err.
  rewrite Hout in Hin. apply elem_of_app in Hin as [Hin|Hin]; [done|].
  by apply list_elem_of_singleton in Hin.
Qed.

Lemma guarded_idle vm : guarded (idle vm).
Proof.
  split_and!; cbn.
  - split; [done|]. intros [[? [=]]|(? & ? & Hin)]. by apply elem_of_nil in Hin.
  - done.
  - intros repo Hin. by apply elem_of_nil in Hin.
Qed.

(** A body that ends after its await, on a pane on which one is running. *)
Lemma guarded_finishBody p repo body vm :
  guarded p -> running p = Some (repo, body) -> guarded (finishBody repo vm p).
Proof.
  intros (Hflag & Hnone & Hguard) Hrun.
  assert (¬ failed p) as Hnot by (intros Hf; by rewrite (Hnone Hf) in Hrun).
  assert (¬ failed (finishBody repo vm p)) as Hnot'
    by (intros Hf; by apply Hnot, (failed_loaded p (finishBody repo vm p) repo)).
  split_and!; cbn.
  - split; [done|]. intros [[? [=]]|Hf]. by destruct Hnot'.
  - done.
  - intros r [Hin|Hin]%elem_of_app.
    + destruct Hnot. by apply (Hguard r).
    + by apply list_elem_of_singleton in Hin.
Qed.

Lemma guarded_step p e : guarded p -> guarded (step scmHistory host p e).
Proof.
  intros Hp. pose proof Hp as (Hflag & Hnone & Hguard). unfold step.
  destruct e as [repo| | |page|err].
  - split_and!; cbn; [by destruct (running p), (queued p)..|].
    destruct (running p), (queued p); apply Hguard.
  - destruct (running p) as [[repo body]|] eqn:Hrun; [done|].
    destruct (queued p) as [|repo rest]; [done|].
    unfold startBody.
    destruct (_repositoryLoadMore p) eqn:Hset.
    + destruct (proj1 Hflag eq_refl) as [[? [=]]|Hf].
      assert (failed {| _treeViewModel := _treeViewModel p;
                        _repositoryLoadMore := true;
                        queued := rest; running := None;
                        providerCalls := providerCalls p;
                        outcomes := outcomes p ++ [ReturnedAtGuard repo] |})
        as Hf' by (by apply (failed_later p _ [ReturnedAtGuard repo])).
      split_and!; cbn; [split; by eauto | done | done].
    + assert (¬ failed p) as Hnot.
      { intros Hf. assert (false = true) as [=]. apply Hflag. by right. }
      split_and!; cbn.
      * split; by eauto.
      * intros Hf. by destruct Hnot.
      * intros r Hin. by apply (Hguard r).
  - destruct (running p) as [[repo [|k]]|] eqn:Hrun; [|done..].
    destruct (getHistoryItems_begin _ _ _) as [elements|k].
    + by apply (guarded_finishBody p repo AwaitUpdateChildren).
    + split_and!; cbn.
      * split; [by eauto|]. intros _. apply Hflag. left. by eauto.
      * intros Hf. change (failed p) in Hf. by apply Hnone in Hf.
      * intros r Hin. change (failed p). by apply (Hguard r).
  - destruct (running p) as [[repo [|k]]|] eqn:Hrun; [done| |done].
    by apply (guarded_finishBody p repo (AwaitProvider k)).
  - destruct (running p) as [[repo [|k]]|] eqn:Hrun; [done| |done].
    assert (failed (failBody repo err
                      (getHistoryItems_resume scmHistory (_treeViewModel p) k
                         (Rejected err)).2 p)) as Hf.
    { exists repo, err. cbn. apply elem_of_app. right. apply list_elem_of_here. }
    split_and!; cbn.
    + split; [by right|]. intros _. apply Hflag. left. by eauto.
    + done.
    + done.
Qed.

Lemma guarded_run events p : guarded p -> guarded (run scmHistory host events p).
Proof.
  revert p. induction events as [|e events IH]; intros p Hp; [done|].
  cbn. apply IH, guarded_step, Hp.
Qed.

(** With the flag set and no body running, whatever happens next calls no
    provider and leaves the view model alone. *)
Lemma stuck_step p e :
  running p = None -> _repositoryLoadMore p = true ->
  running (step scmHistory host p e) = None
  ∧ _repositoryLoadMore (step scmHistory host p e) = true
  ∧ providerCalls (step scmHistory host p e) = providerCalls p
  ∧ _treeViewModel (step scmHistory host p e) = _treeViewModel p
  ∧ ∃ returned,
      outcomes (step scmHistory host p e)
      = outcomes p ++ (ReturnedAtGuard <$> returned).
Proof.
  intros Hrun Hset. unfold step. rewrite Hrun.
  destruct e as [repo| | |page|err]; cbn.
  - split_and!; [done..|]. exists []. by rewrite app_nil_r.
  - destruct (queued p) as [|repo rest].
    + split_and!; [done..|]. exists []. by rewrite app_nil_r.
    + unfold startBody. rewrite Hset. cbn.
      split_and!; [done..|]. by exists [repo].
  - split_and!; [by destruct (queued p)..|].
    exists []. rewrite app_nil_r. by destruct (queued p).
  - split_and!; [by destruct (queued p)..|].
    exists []. rewrite app_nil_r. by destruct (queued p).
  - split_and!; [by destruct (queued p)..|].
    exists []. rewrite app_nil_r. by destruct (queued p).
Qed.

Lemma stuck_run events p :
  running p = None -> _repositoryLoadMore p = true ->
  running (run scmHistory host events p) = None
  ∧ _repositoryLoadMore (run scmHistory host events p) = true
  ∧ providerCalls (run scmHistory host events p) = providerCalls p
  ∧ _treeViewModel (run scmHistory host events p) = _treeViewModel p
  ∧ ∃ returned,
      outcomes (run scmHistory host events p)
      = outcomes p ++ (ReturnedAtGuard <$> returned).
Proof.
  revert p. induction events as [|e events IH]; intros p Hrun Hset.
  - cbn. split_and!; [done..|]. exists []. by rewrite app_nil_r.
  - cbn [run fold_left].
    destruct (stuck_step p e Hrun Hset)
      as (Hrun' & Hset' & Hcalls & Hvm & returned & Hout).
    destruct (IH _ Hrun' Hset')
      as (Hrun'' & Hset'' & Hcalls' & Hvm' & returned' & Hout').
    unfold run in *.
    split_and!; [done | done | congruence | congruence |].
    exists (returned ++ returned').
    by rewrite Hout', Hout, fmap_app, app_assoc.
Qed.

(** X7: in every run of load-more events on the pane, fetches that are
    rejected included, the flag [_repositoryLoadMore] is set exactly while a
    body is running or after a body has failed, and a body returns at the
    guard only after an earlier body has failed. Once a body has failed
    (its update was rejected, so the flag was never reset), load-more is
    stuck: whatever load-more events follow, no body runs to the provider,
    every body that starts returns at the guard, no further provider call is
    made and the view model stays as it is. *)
Theorem loadMore_stuck_after_rejection (vm : ViewModel)
    (events later : list Event) :
  let p := run scmHistory host events (idle vm) in
  let p' := run scmHistory host later p in
  (_repositoryLoadMore p = true ↔ is_Some (running p) ∨ failed p)
  ∧ (∀ repo, ReturnedAtGuard repo ∈ outcomes p -> failed p)
  ∧ (failed p ->
     running p' = None
     ∧ _repositoryLoadMore p' = true
     ∧ providerCalls p' = providerCalls p
     ∧ _treeViewModel p' = _treeViewModel p
     ∧ ∃ returned, outcomes p' = outcomes p ++ (ReturnedAtGuard <$> returned)).
Proof.
  intros p p'.
  destruct (guarded_run events (idle vm) (guarded_idle vm))
    as (Hflag & Hnone & Hguard).
  fold p in Hflag, Hnone, Hguard.
  split_and!; [done..|].
  intros Hf. apply stuck_run; [by apply Hnone|].
  apply Hflag. by right.
Qed.

Lemma step_cache_grows p e repo :
  awaitsOnCache p ->
  cachedItems (_treeViewModel p) repo
  `prefix_of` cachedItems (_treeViewModel (step scmHistory host p e)) repo
  ∧ awaitsOnCache (step scmHistory host p e).
Proof.
  intros Hinv. unfold step.
  destruct e as [r| | |page|err].
  - split; [done|]. intros r' k. cbn. apply Hinv.
  - destruct (running p) as [[r body]|] eqn:Hrun; [done|].
    destruct (queued p) as [|r rest]; [done|].
    unfold startBody. destruct (_repositoryLoadMore p); cbn.
    + split; [done | by intros ? ? [=]].
    + rewrite ViewModelMore.setLoadMore_cachedItems.
      split; [done | by intros ? ? [=]].
  - destruct (running p) as [[r [|k]]|] eqn:Hrun; [|done..].
    destruct (getHistoryItems_begin _ _ _) as [elements|k] eqn:Hbegin; cbn.
    + split; [done | by intros ? ? [=]].
    + split; [done|]. intros r' k' [= <- <-].
      apply ViewModelMore.getHistoryItems_begin_suspended in Hbegin
        as (active & provider & group & _ & _ & _ & -> & _).
      done.
  - destruct (running p) as [[r [|k]]|] eqn:Hrun; [done| |done].
    cbn. split; [|by intros ? ? [=]].
    unfold cachedItems at 2. cbn.
    destruct (decide (await_repository k = repo)) as [<-|Hne].
    + rewrite lookup_insert_eq. cbn. rewrite (Hinv r k Hrun).
      by apply prefix_app_r.
    + by rewrite lookup_insert_ne.
  - destruct (running p) as [[r [|k]]|] eqn:Hrun; [done| |done].
    cbn. split; [done | by intros ? ? [=]].
Qed.

(** X8: in every run of load-more events on the pane, fetches that are
    rejected included, the items cached for a repository at the start are a
    prefix of the items cached for it at the end: load-more only appends,
    also when further invocations arrive while a fetch is outstanding, and a
    rejected fetch leaves the cached items as they are. *)
Theorem loadMore_cache_grows (vm : ViewModel) (events : list Event)
    (repo : ISCMRepository) :
  cachedItems vm repo
  `prefix_of`
  cachedItems (_treeViewModel (run scmHistory host events (idle vm))) repo.
Proof.
  assert (∀ events p, awaitsOnCache p ->
            cachedItems (_treeViewModel p) repo
            `prefix_of`
            cachedItems (_treeViewModel (run scmHistory host events p)) repo)
    as Hrun.
  { clear events. induction events as [|e events IH]; intros p Hp; [done|].
    cbn [run fold_left].
    destruct (step_cache_grows p e repo Hp) as [Hstep Hinv].
    etrans; [exact Hstep|]. apply IH, Hinv. }
  apply (Hrun events (idle vm)). by intros ? ? [=].
Qed.

End Facts.

End PaneMore.

(** ** The Git history provider: the current history item group *)

Module GitStatusFacts.

Import GitStatus.

Lemma resolveHEADMergeBase_without_branch status :
  (∀ head, HEAD status = Some head ->
     branch_type head ≠ Head ∨ truthy (branch_name head) = false) ->
  resolveHEADMergeBase status = Task.ret None.
Proof.
  intros Hhead. unfold resolveHEADMergeBase.
  destruct (HEAD status) as [head|]; [|done].
  destruct (Hhead head eq_refl) as [Htype | ->].
  - by destruct (branch_type head).
  - by rewrite orb_true_r.
Qed.

(** X9: when HEAD is undefined, is not a branch (a tag, a detached commit),
    or has no name, [onDidRunGitStatus] does not look up a merge base: it
    resolves, fires the change event, and leaves no current group (no HEAD)
    or a group without base whose revision is the commit of HEAD. *)
Theorem onDidRunGitStatus_without_branch status current :
  (∀ head, HEAD status = Some head ->
     branch_type head ≠ Head ∨ truthy (branch_name head) = false) ->
  (∀ name, CallGetBranchBase name ∉ (onDidRunGitStatus status current).1.1)
  ∧ (onDidRunGitStatus status current).1.2 = Resolved tt
  ∧ FireDidChangeCurrentHistoryItemGroup ∈ (onDidRunGitStatus status current).1.1
  ∧ match HEAD status with
    | None => (onDidRunGitStatus status current).2 = None
    | Some head =>
        ∃ group,
          (onDidRunGitStatus status current).2 = Some group
          ∧ group_base group = None
          ∧ group_revision group = branch_commit head
    end.
Proof.
  intros Hhead. unfold onDidRunGitStatus.
  rewrite (resolveHEADMergeBase_without_branch status Hhead).
  destruct (HEAD status) as [head|]; cbn.
  - split_and!; [|done| |by eauto].
    + intros name Hin. apply elem_of_cons in Hin as [[=]|Hin].
      apply elem_of_cons in Hin as [[=]|Hin]. by apply elem_of_nil in Hin.
    + by left.
  - split_and!; [|done| |done].
    + intros name Hin. apply elem_of_cons in Hin as [[=]|Hin].
      apply elem_of_cons in Hin as [[=]|Hin]. by apply elem_of_nil in Hin.
    + right. by left.
Qed.

(** X10: when the lookup of the merge base fails, [onDidRunGitStatus] rejects
    with that failure after the one lookup, keeps the current history item
    group it had and fires no change event. *)
Theorem onDidRunGitStatus_rejects status current head name err :
  HEAD status = Some head ->
  branch_type head = Head ->
  branch_name head = Some name ->
  truthy (Some name) = true ->
  getBranchBase status name = Rejected err ->
  onDidRunGitStatus status current
  = (([CallGetBranchBase name], Rejected err), current).
Proof.
  intros Hhead Htype Hname Htruthy Hreject.
  unfold onDidRunGitStatus, resolveHEADMergeBase, Task.call.
  rewrite Hhead, Htype, Hname, Htruthy, Hreject. done.
Qed.

(** X11: a group set by [onDidRunGitStatus] has a base only when HEAD is a
    named branch whose merge base was found and differs from the upstream of
    HEAD in its remote or in its name; a merge base that is the upstream
    itself gives no base. *)
Theorem onDidRunGitStatus_base status current head group base :
  HEAD status = Some head ->
  (onDidRunGitStatus status current).1.2 = Resolved tt ->
  (onDidRunGitStatus status current).2 = Some group ->
  group_base group = Some base ->
  ∃ name mergeBase,
    branch_type head = Head
    ∧ branch_name head = Some name
    ∧ getBranchBase status name = Resolved (Some mergeBase)
    ∧ (branch_remote mergeBase ≠ (upstream_remote <$> branch_upstream head)
       ∨ branch_name mergeBase ≠ (upstream_name <$> branch_upstream head))
    ∧ ref_name base
      = interpolate (branch_remote mergeBase) +:+ "/"
        +:+ interpolate (branch_name mergeBase)
    ∧ ref_revision base = branch_commit mergeBase.
Proof.
  intros Hhead. unfold onDidRunGitStatus, resolveHEADMergeBase.
  rewrite Hhead.
  destruct (negb (RefType_eqb (branch_type head) Head)
            || negb (truthy (branch_name head))) eqn:Hguard.
  { cbn. intros _ [= <-]. done. }
  apply orb_false_elim in Hguard as [Htype Hname].
  destruct (branch_name head) as [name|] eqn:Hbranch; [|done].
  unfold Task.call.
  destruct (getBranchBase status name) as [[mergeBase|]|err] eqn:Hbase;
    cbn; [| by intros _ [= <-] | by intros [=]].
  intros _ [= <-]. cbn.
  destruct (bool_decide _ || bool_decide _) eqn:Hdiffers; [|done].
  intros [= <-]. exists name, mergeBase. cbn.
  split_and!; try done.
  - by destruct (branch_type head).
  - apply orb_true_iff in Hdiffers as [H|H]; apply bool_decide_eq_true in H; eauto.
Qed.

End GitStatusFacts.

(** ** The Git history provider: changes and decorations *)

Module GitChangesFacts.

Import GitChanges.

Section Facts.

Context {Uri Status : Type} (api : @Api Uri Status).

Implicit Types (l : @Loop Uri) (changes : list (@Change Uri Status)).

Lemma loop_changes id parent changes l :
  historyItemChanges (fold_left (loopBody api id parent) changes l)
  = historyItemChanges l
    ++ ((fun change =>
           {| uri := historyItemUri api id change;
              originalUri := toGitUri api (change_originalUri change) parent;
              modifiedUri := toGitUri api (change_uri change) id;
              renameUri := change_renameUri change |}) <$> changes)
  ∧ historyItemChangesUri (fold_left (loopBody api id parent) changes l)
    = historyItemChangesUri l ++ (historyItemUri api id <$> changes).
Proof.
  revert l. induction changes as [|change changes IH]; intros l; cbn.
  - by rewrite !app_nil_r.
  - destruct (IH (loopBody api id parent l change)) as [-> ->]. cbn.
    by rewrite <- !app_assoc.
Qed.

Lemma loop_decorations_other id parent changes l key :
  (∀ change, change ∈ changes ->
     toString api (historyItemUri api id change) ≠ key) ->
  historyItemDecorations (fold_left (loopBody api id parent) changes l) !! key
  = historyItemDecorations l !! key.
Proof.
  revert l. induction changes as [|change changes IH]; intros l Hother; [done|].
  cbn [fold_left]. rewrite IH.
  - cbn. apply lookup_insert_ne, Hother. by left.
  - intros c Hc. apply Hother. by right.
Qed.

Lemma loop_decorations_kept id parent changes l key :
  is_Some (historyItemDecorations l !! key) ->
  is_Some (historyItemDecorations
             (fold_left (loopBody api id parent) changes l) !! key).
Proof.
  revert l. induction changes as [|change changes IH]; intros l Hkey; [done|].
  cbn [fold_left]. apply IH. cbn.
  destruct (decide (toString api (historyItemUri api id change) = key)) as [->|Hne].
  - rewrite lookup_insert_eq. by eexists.
  - by rewrite lookup_insert_ne.
Qed.

Lemma loop_decorations_new id parent changes l change :
  change ∈ changes ->
  is_Some (historyItemDecorations
             (fold_left (loopBody api id parent) changes l)
           !! toString api (historyItemUri api id change)).
Proof.
  revert l. induction changes as [|c changes IH]; intros l Hin.
  - by apply elem_of_nil in Hin.
  - cbn [fold_left]. apply elem_of_cons in Hin as [->|Hin]; [|by apply IH].
    apply loop_decorations_kept. cbn. rewrite lookup_insert_eq. by eexists.
Qed.

Lemma loop_decorations_distinct id parent changes l change :
  NoDup ((fun c => toString api (historyItemUri api id c)) <$> changes) ->
  change ∈ changes ->
  historyItemDecorations (fold_left (loopBody api id parent) changes l)
  !! toString api (historyItemUri api id change)
  = Some (decorationOf api change).
Proof.
  revert l. induction changes as [|c changes IH]; intros l Hnodup Hin.
  - by apply elem_of_nil in Hin.
  - cbn [fold_left]. rewrite fmap_cons in Hnodup.
    apply NoDup_cons in Hnodup as [Hfresh Hnodup].
    apply elem_of_cons in Hin as [->|Hin]; [|by apply IH].
    rewrite loop_decorations_other.
    + cbn. by rewrite lookup_insert_eq.
    + intros c' Hc' Heq. apply Hfresh. rewrite <- Heq.
      by apply (list_elem_of_fmap_2
                  (fun c => toString api (historyItemUri api id c))).
Qed.

(** How a call of [provideHistoryItemChanges] ends. *)
Lemma provideHistoryItemChanges_outcomes decorations id parentId :
  (∃ trace err,
     provideHistoryItemChanges api decorations id parentId
     = ((trace, Rejected err), decorations)
     ∧ ∀ uris, FireDidChangeDecorations uris ∉ trace)
  ∨ ∃ trace parent changes,
      (parentId = Some parent ∨ parentId = None ∧ getEmptyTree api = Resolved parent)
      ∧ diffTrees api parent id = Resolved changes
      ∧ provideHistoryItemChanges api decorations id parentId
        = ((trace ++ [CallDiffTrees parent id;
                      FireDidChangeDecorations (historyItemUri api id <$> changes)],
            Resolved
              ((fun change =>
                  {| uri := historyItemUri api id change;
                     originalUri := toGitUri api (change_originalUri change) parent;
                     modifiedUri := toGitUri api (change_uri change) id;
                     renameUri := change_renameUri change |}) <$> changes)),
           historyItemDecorations
             (fold_left (loopBody api id parent) changes
                {| historyItemChangesUri := []; historyItemChanges := [];
                   historyItemDecorations := decorations |})).
Proof.
  unfold provideHistoryItemChanges.
  assert (∀ uris, FireDidChangeDecorations uris ∉ [CallGetEmptyTree (Uri:=Uri)])
    as Hempty.
  { intros uris [[=]|Hin%elem_of_nil]%elem_of_cons. done. }
  destruct parentId as [parent|]; cbn.
  - destruct (diffTrees api parent id) as [changes|err] eqn:Hdiff.
    + right. exists [], parent, changes.
      destruct (loop_changes id parent changes
                  {| historyItemChangesUri := []; historyItemChanges := [];
                     historyItemDecorations := decorations |}) as [-> ->].
      split_and!; by eauto.
    + left. eexists _, _. split; [done|].
      intros uris [[=]|Hin%elem_of_nil]%elem_of_cons. done.
  - destruct (getEmptyTree api) as [parent|err] eqn:Htree.
    + destruct (diffTrees api parent id) as [changes|err] eqn:Hdiff.
      * right. exists [CallGetEmptyTree], parent, changes.
        destruct (loop_changes id parent changes
                    {| historyItemChangesUri := []; historyItemChanges := [];
                       historyItemDecorations := decorations |}) as [-> ->].
        split_and!; by eauto.
      * left. eexists _, _. split; [done|].
        intros uris [[=]|[[=]|Hin%elem_of_nil]%elem_of_cons]%elem_of_cons. done.
    + left. eexists _, _. split; [done|]. apply Hempty.
Qed.

(** X12: when [provideHistoryItemChanges] resolves, it returns one change per
    entry of [diffTrees], in order, each under the URI of the entry with the
    history item as query; every returned URI then has a file decoration, and
    the decoration event has been fired once with exactly the returned URIs. *)
Theorem provideHistoryItemChanges_decorated decorations id parentId result :
  (provideHistoryItemChanges api decorations id parentId).1.2 = Resolved result ->
  (∀ c, c ∈ result ->
     is_Some (provideFileDecoration api
                (provideHistoryItemChanges api decorations id parentId).2 (uri c)))
  ∧ FireDidChangeDecorations (uri <$> result)
    ∈ (provideHistoryItemChanges api decorations id parentId).1.1
  ∧ ∃ parent changes,
      diffTrees api parent id = Resolved changes
      ∧ (uri <$> result)
        = ((fun change => with_query api (change_uri change) ("ref=" +:+ id))
           <$> changes)
      ∧ (renameUri <$> result) = (change_renameUri <$> changes).
Proof.
  destruct (provideHistoryItemChanges_outcomes decorations id parentId)
    as [(trace & err & -> & _) | (trace & parent & changes & _ & Hdiff & ->)];
    [by intros [=]|].
  cbn [fst snd]. intros [= <-]. rewrite <- !list_fmap_compose.
  split_and!.
  - intros c [change [-> Hin]]%list_elem_of_fmap_1. cbn [uri].
    unfold provideFileDecoration. by apply loop_decorations_new.
  - apply elem_of_app. right. right. by left.
  - exists parent, changes. done.
Qed.

(** X13: when [provideHistoryItemChanges] rejects (the empty tree or the diff
    could not be obtained), the decorations are as they were and no
    decoration event has been fired. *)
Theorem provideHistoryItemChanges_rejects decorations id parentId err :
  (provideHistoryItemChanges api decorations id parentId).1.2 = Rejected err ->
  (provideHistoryItemChanges api decorations id parentId).2 = decorations
  ∧ ∀ uris,
      FireDidChangeDecorations uris
      ∉ (provideHistoryItemChanges api decorations id parentId).1.1.
Proof.
  destruct (provideHistoryItemChanges_outcomes decorations id parentId)
    as [(trace & err' & -> & Hfire) | (trace & parent & changes & _ & _ & ->)];
    [done | by intros [=]].
Qed.

(** X14: [provideHistoryItemChanges] never removes a decoration: a URI that
    had one keeps one, and it keeps the very same one unless a returned
    change has a URI that prints the same. *)
Theorem provideHistoryItemChanges_keeps_decorations decorations id parentId u :
  (is_Some (provideFileDecoration api decorations u) ->
   is_Some (provideFileDecoration api
              (provideHistoryItemChanges api decorations id parentId).2 u))
  ∧ (∀ result,
       (provideHistoryItemChanges api decorations id parentId).1.2
         = Resolved result ->
       (∀ c, c ∈ result -> toString api (uri c) ≠ toString api u) ->
       provideFileDecoration api
         (provideHistoryItemChanges api decorations id parentId).2 u
       = provideFileDecoration api decorations u).
Proof.
  unfold provideFileDecoration.
  destruct (provideHistoryItemChanges_outcomes decorations id parentId)
    as [(trace & err & -> & _) | (trace & parent & changes & _ & _ & ->)];
    cbn [fst snd].
  - split; [done | by intros result [=]].
  - split.
    + intros Hsome. by apply loop_decorations_kept.
    + intros result [= <-] Hother. apply loop_decorations_other.
      intros change Hin.
      apply (Hother
               {| uri := historyItemUri api id change;
                  originalUri := toGitUri api (change_originalUri change) parent;
                  modifiedUri := toGitUri api (change_uri change) id;
                  renameUri := change_renameUri change |}).
      apply list_elem_of_fmap. by exists change.
Qed.

(** X15: when the returned URIs print differently from each other, the
    decoration of each is made of the status letter, text and colour of the
    entry of [diffTrees] it comes from. *)
Theorem provideHistoryItemChanges_decoration decorations id parentId result :
  (provideHistoryItemChanges api decorations id parentId).1.2 = Resolved result ->
  NoDup ((fun c => toString api (uri c)) <$> result) ->
  ∃ parent changes,
    diffTrees api parent id = Resolved changes
    ∧ length result = length changes
    ∧ ∀ i c change,
        result !! i = Some c -> changes !! i = Some change ->
        provideFileDecoration api
          (provideHistoryItemChanges api decorations id parentId).2 (uri c)
        = Some {| badge := getStatusLetter api (change_status change);
                  tooltip := getStatusText api (change_status change);
                  color := getStatusColor api (change_status change) |}.
Proof.
  destruct (provideHistoryItemChanges_outcomes decorations id parentId)
    as [(trace & err & -> & _) | (trace & parent & changes & _ & Hdiff & ->)];
    [by intros [=]|].
  cbn [fst snd]. intros [= <-]. rewrite <- list_fmap_compose.
  intros Hnodup. exists parent, changes.
  split_and!; [done | by rewrite length_fmap |].
  intros i c change Hc Hchange.
  rewrite list_lookup_fmap, Hchange in Hc. injection Hc as <-. cbn [uri].
  unfold provideFileDecoration.
  rewrite (loop_decorations_distinct id parent changes _ change); [done|done|].
  by apply list_elem_of_lookup_2 in Hchange.
Qed.

End Facts.

End GitChangesFacts.

(** ** The Git history provider: history items, labels, common ancestor *)

Module GitMore.

Import GitHistoryProvider GitCalls.

Lemma substring_0_length n s : String.length (String.substring 0 n s) ≤ n.
Proof.
  revert s. induction n as [|n IH]; intros [|c s]; cbn; try lia.
  specialize (IH s). lia.
Qed.

Lemma substring_0_prefix n s : String.prefix (String.substring 0 n s) s = true.
Proof.
  revert s. induction n as [|n IH]; intros [|c s]; cbn; try done.
  destruct (Ascii.ascii_dec c c); [apply IH | done].
Qed.

Lemma substring_0_all s : String.substring 0 (String.length s) s = s.
Proof. induction s as [|c s IH]; cbn; [done | by rewrite IH]. Qed.

(** A prefix and what [substring] leaves after it make up the string. *)
Lemma prefix_substring_from key label :
  String.prefix key label = true ->
  key +:+ substring_from (String.length key) label = label.
Proof.
  unfold substring_from. revert label.
  induction key as [|a key IH]; intros label Hprefix; cbn.
  - rewrite Nat.sub_0_r. apply substring_0_all.
  - destruct label as [|b label]; [done|]. cbn in *.
    destruct (Ascii.ascii_dec a b) as [->|]; [|done].
    change (String b (key +:+ String.substring (String.length key)
                        (String.length label - String.length key) label)
            = String b label).
    f_equal. by apply IH.
Qed.

Lemma resolveLabel_Some table refName label :
  resolveLabel table refName = Some label ->
  ∃ key icon,
    (key, icon) ∈ table
    ∧ String.prefix key refName = true
    ∧ label_title label = substring_from (String.length key) refName
    ∧ label_icon label = Some icon.
Proof.
  induction table as [|[key icon] table IH]; cbn; [done|].
  destruct (String.prefix key refName) eqn:Hprefix.
  - intros [= <-]. exists key, icon. split_and!; [by left|done..].
  - intros (key' & icon' & Hin & ?)%IH. exists key', icon'.
    split; [by right | done].
Qed.

(** X16: every label [resolveHistoryItemLabels] gives a commit comes from one
    of its ref names that starts with one of the four known prefixes: the
    prefix followed by the title of the label is that ref name, and the icon
    is the one listed for the prefix. Ref names with another beginning give
    no label, so there are at most as many labels as ref names. *)
Theorem resolveHistoryItemLabels_sound commit :
  length (resolveHistoryItemLabels commit) ≤ length (refNames commit)
  ∧ ∀ label,
      label ∈ resolveHistoryItemLabels commit ->
      ∃ refName key icon,
        refName ∈ refNames commit
        ∧ (key, icon) ∈ [("HEAD -> refs/heads/", "target");
                          ("tag: refs/tags/", "tag");
                          ("refs/heads/", "git-branch");
                          ("refs/remotes/", "cloud")]
        ∧ key +:+ label_title label = refName
        ∧ label_icon label = Some icon.
Proof.
  unfold resolveHistoryItemLabels. split.
  - induction (refNames commit) as [|refName refs IH];
      cbn -[historyItemLabels resolveLabel]; [done|].
    destruct (resolveLabel historyItemLabels refName);
      cbn -[historyItemLabels resolveLabel]; lia.
  - intros label (refName & Hin & Hlabel)%list_elem_of_omap.
    apply resolveLabel_Some in Hlabel as (key & icon & Htable & Hprefix & Htitle & Hicon).
    exists refName, key, icon. split_and!; [done..| |done].
    rewrite Htitle. by apply prefix_substring_from.
Qed.

(** What the [try] block of [provideHistoryItems] has done when it resolves. *)
Lemma provideHistoryItems_try_resolved this options refs historyItems :
  (provideHistoryItems_try this options refs).2 = Resolved historyItems ->
  ∃ o commits,
    logCalls (provideHistoryItems_try this options refs).1 = [o]
    ∧ log (repo this) o = Resolved commits
    ∧ historyItems = toHistoryItem (repo this) <$> commits.
Proof.
  unfold provideHistoryItems_try.
  set (base := {| log_refNames := refs; log_shortStats := Some true;
                  log_maxEntries := None; log_range := None; log_skip := None;
                  log_silent := None; log_maxParents := None |}).
  destruct (GitFacts.limit_stage_refNames (repo this) options base) as [Hnolog _].
  cbv zeta in Hnolog.
  destruct (match limit options with
            | Some (LimitNumber n) => _
            | Some (LimitItem (Some id)) => _
            | Some (LimitItem None) => _
            | None => _
            end) as [trace [o|err]]; cbn [fst snd] in *; [|by unfold bind].
  unfold bind at 1. unfold bind, call, ret.
  set (final := with_silent true _).
  destruct (log (repo this) final) as [commits|err] eqn:Hlog; [|done].
  destruct (ensureEmojis (repo this)); [|done].
  cbn. intros [= <-]. exists final, commits.
  rewrite !GitFacts.logCalls_app, Hnolog. done.
Qed.

(** X17: when the log and the emoji table are obtained, [provideHistoryItems]
    returns one history item per commit of the log, in the order of the log:
    the id is the hash, the parents are the parents of the commit, the
    display id is a prefix of the hash of at most 8 characters, and the
    statistics are always present. *)
Theorem provideHistoryItems_items this options group ids historyItems :
  currentHistoryItemGroup this = Some group ->
  historyItemGroupIds options = Some ids ->
  (provideHistoryItems_try this options (Array_from_Set (Set_new ids))).2
    = Resolved historyItems ->
  (provideHistoryItems this options).2 = Resolved historyItems
  ∧ ∃ o commits,
      logCalls (provideHistoryItems this options).1 = [o]
      ∧ log (repo this) o = Resolved commits
      ∧ item_id <$> historyItems = hash <$> commits
      ∧ item_parentIds <$> historyItems = parents <$> commits
      ∧ Forall (fun item =>
                  is_Some (item_statistics item)
                  ∧ ∃ displayId,
                      item_displayId item = Some displayId
                      ∧ String.length displayId ≤ 8
                      ∧ String.prefix displayId (item_id item) = true)
               historyItems.
Proof.
  intros Hgroup Hids Htry.
  pose proof (GitFacts.provideHistoryItems_logCalls this options group ids
                Hgroup Hids) as Hcalls.
  destruct (provideHistoryItems_try_resolved _ _ _ _ Htry)
    as (o & commits & Hlog & Hcommits & ->).
  split.
  - unfold provideHistoryItems, try_catch. rewrite Hgroup, Hids.
    destruct (provideHistoryItems_try _ _ _) as [trace [items|err]]; [done|].
    by cbn in Htry.
  - exists o, commits. rewrite Hcalls.
    split_and!; [done | done | | |].
    + by rewrite <- list_fmap_compose.
    + by rewrite <- list_fmap_compose.
    + apply Forall_fmap, Forall_forall. intros commit _. cbn.
      split; [by eexists|]. eexists. split; [done|].
      split; [apply substring_0_length | apply substring_0_prefix].
Qed.

Lemma provideHistoryItems_try_unfold this options refs :
  provideHistoryItems_try this options refs
  = (logOptions <- limitStage (repo this) options (initialLogOptions refs) ;;
     commits <-
       call (CallLog (with_silent true
                        (match skip options with
                         | Some n => with_skip n logOptions
                         | None => logOptions
                         end)))
            (log (repo this)
               (with_silent true
                  (match skip options with
                   | Some n => with_skip n logOptions
                   | None => logOptions
                   end))) ;;
     _ <- call CallEnsureEmojis (ensureEmojis (repo this)) ;;
     ret (toHistoryItem (repo this) <$> commits)).
Proof. reflexivity. Qed.

Lemma limitStage_options r options refs lo :
  (limitStage r options (initialLogOptions refs)).2 = Resolved lo ->
  log_shortStats lo = Some true
  ∧ log_skip lo = None
  ∧ log_maxParents lo = None
  ∧ match limit options with
    | None => log_maxEntries lo = Some 50%Z ∧ log_range lo = None
    | Some (LimitNumber n) => log_maxEntries lo = Some n ∧ log_range lo = None
    | Some (LimitItem _) => log_maxEntries lo = None
    end.
Proof.
  unfold limitStage, bind, call, ret.
  destruct (limit options) as [[n|[id|]]|]; cbn; try by intros [= <-].
  destruct (getCommit r id) as [commit|err]; [|done].
  destruct (parents commit) as [|parent ?].
  - destruct (getEmptyTree r) as [tree|err]; cbn; [|done]. by intros [= <-].
  - cbn. by intros [= <-].
Qed.

Lemma limitStage_no_log r options refs :
  logCalls (limitStage r options (initialLogOptions refs)).1 = [].
Proof.
  unfold limitStage, bind, call, ret.
  destruct (limit options) as [[n|[id|]]|]; cbn; try done.
  destruct (getCommit r id) as [commit|err]; [|done].
  destruct (parents commit) as [|parent ?]; [|done].
  by destruct (getEmptyTree r).
Qed.

(** The log call of the [try] block, if the block gets that far. *)
Lemma provideHistoryItems_try_logCall this options refs :
  logCalls (provideHistoryItems_try this options refs).1 = []
  ∨ ∃ lo,
      (limitStage (repo this) options (initialLogOptions refs)).2 = Resolved lo
      ∧ logCalls (provideHistoryItems_try this options refs).1
        = [with_silent true
             (match skip options with
              | Some n => with_skip n lo
              | None => lo
              end)].
Proof.
  rewrite provideHistoryItems_try_unfold.
  pose proof (limitStage_no_log (repo this) options refs) as Hnolog.
  destruct (limitStage (repo this) options (initialLogOptions refs))
    as [trace [lo|err]]; cbn [fst snd] in *.
  - right. exists lo. split; [done|].
    unfold bind at 1. unfold bind, call, ret.
    destruct (log (repo this) _) as [commits|err];
      [destruct (ensureEmojis (repo this))|];
      cbn; rewrite !GitFacts.logCalls_app, Hnolog; done.
  - left. unfold bind. cbn. done.
Qed.

(** A log call of [provideHistoryItems]: the options left by the limit, with
    the skip and the silent flag put on top. *)
Lemma logCall_shape this options o :
  o ∈ logCalls (provideHistoryItems this options).1 ->
  ∃ ids lo,
    historyItemGroupIds options = Some ids
    ∧ (limitStage (repo this) options
         (initialLogOptions (Array_from_Set (Set_new ids)))).2 = Resolved lo
    ∧ o = with_silent true
            (match skip options with
             | Some n => with_skip n lo
             | None => lo
             end).
Proof.
  intros Hin.
  destruct (currentHistoryItemGroup this) as [group|] eqn:Hgroup;
    [|rewrite GitFacts.provideHistoryItems_no_group in Hin by (by left);
      by apply elem_of_nil in Hin].
  destruct (historyItemGroupIds options) as [ids|] eqn:Hids;
    [|rewrite GitFacts.provideHistoryItems_no_group in Hin by (by right);
      by apply elem_of_nil in Hin].
  rewrite (GitFacts.provideHistoryItems_logCalls this options group ids Hgroup Hids)
    in Hin.
  destruct (provideHistoryItems_try_logCall this options
              (Array_from_Set (Set_new ids)))
    as [Hnone | (lo & Hstage & Hone)]; rewrite ?Hnone, ?Hone in Hin;
    [by apply elem_of_nil in Hin|].
  apply list_elem_of_singleton in Hin as ->. by exists ids, lo.
Qed.

(** X18: every log call of [provideHistoryItems] is silent, asks for short
    statistics and carries the [skip] of the options; it carries either a
    maximal number of entries (the limit when it is a number, 50 when there
    is none) or, for a limit given by a history item, no maximal number. *)
Theorem provideHistoryItems_logOptions this options o :
  o ∈ logCalls (provideHistoryItems this options).1 ->
  log_silent o = Some true
  ∧ log_shortStats o = Some true
  ∧ log_maxParents o = None
  ∧ log_skip o = skip options
  ∧ match limit options with
    | None => log_maxEntries o = Some 50%Z ∧ log_range o = None
    | Some (LimitNumber n) => log_maxEntries o = Some n ∧ log_range o = None
    | Some (LimitItem _) => log_maxEntries o = None
    end.
Proof.
  intros (ids & lo & _ & Hstage & ->)%logCall_shape.
  apply limitStage_options in Hstage as (Hshort & Hskip & Hparents & Hlimit).
  destruct (skip options) as [k|]; cbn; split_and!; try done;
    by destruct (limit options) as [[n|[id|]]|].
Qed.

Lemma repositoryCalls_call e trace :
  isRepositoryCall e = true ->
  repositoryCalls (e :: trace) = e :: repositoryCalls trace.
Proof. intros He. unfold repositoryCalls. by rewrite filter_cons, decide_True. Qed.

Lemma repositoryCalls_logger text trace :
  repositoryCalls (LoggerError text :: trace) = repositoryCalls trace.
Proof. unfold repositoryCalls. by rewrite filter_cons, decide_False. Qed.

(** X19: [resolveHistoryItemGroupCommonAncestor] calls the repository at most
    once. For no ids, or for one id that is not the id of the current group,
    it returns [undefined] without any call and without a log line. For the
    id of the current group it asks for the merge base with the remote when
    the group has one, whether or not it has a base; for several ids it asks
    for the merge base of all of them. *)
Theorem resolveHistoryItemGroupCommonAncestor_calls this ids :
  length (repositoryCalls (resolveHistoryItemGroupCommonAncestor this ids).1) ≤ 1
  ∧ (ids = []
     ∨ (∃ id, ids = [id]
              ∧ (group_id <$> currentHistoryItemGroup this) ≠ Some id) ->
     resolveHistoryItemGroupCommonAncestor this ids = ([], Resolved None))
  ∧ (∀ group remote,
       currentHistoryItemGroup this = Some group ->
       group_remote group = Some remote ->
       ids = [group_id group] ->
       repositoryCalls (resolveHistoryItemGroupCommonAncestor this ids).1
       = [CallGetMergeBase (group_id group) (ref_id remote) []])
  ∧ (∀ id1 id2 rest,
       ids = id1 :: id2 :: rest ->
       repositoryCalls (resolveHistoryItemGroupCommonAncestor this ids).1
       = [CallGetMergeBase id1 id2 rest]).
Proof.
  assert (∀ (e : Effect) (settled : Settled (option string)),
            isRepositoryCall e = true ->
            repositoryCalls
              (try_catch (call e settled)
                 (fun err =>
                    _ <- logger_error
                           ("[GitHistoryProvider][resolveHistoryItemGroupCommonAncestor] Failed to resolve common ancestor for "
                            +:+ String.concat "," ids +:+ ": " +:+ err) ;;
                    ret None)).1 = [e]) as Hcall.
  { intros e [ancestor|err] He; cbn -[repositoryCalls];
      by rewrite repositoryCalls_call, ?repositoryCalls_logger. }
  unfold resolveHistoryItemGroupCommonAncestor,
    resolveHistoryItemGroupCommonAncestor_try.
  split_and!.
  - destruct ids as [|id0 [|id1 rest]]; [cbn; lia | | by rewrite Hcall].
    destruct (currentHistoryItemGroup this) as [group|]; [|cbn; lia].
    destruct (decide (id0 = group_id group)); [|cbn; lia].
    destruct (group_remote group); [by rewrite Hcall|].
    destruct (group_base group); [by rewrite Hcall|].
    unfold bind, call, ret, try_catch.
    destruct (log (repo this) _) as [[|commit commits]|err];
      cbn -[repositoryCalls];
      by rewrite repositoryCalls_call, ?repositoryCalls_logger.
  - intros [-> | (id & -> & Hother)]; [done|].
    destruct (currentHistoryItemGroup this) as [group|]; [|done].
    destruct (decide (id = group_id group)) as [->|]; [|done].
    by destruct Hother.
  - intros group remote -> Hremote ->. rewrite decide_True by done.
    rewrite Hremote. by apply Hcall.
  - intros id1 id2 rest ->. by apply Hcall.
Qed.

(** X20: the request the history view model makes, given to the Git history
    provider, becomes a log call for at most [clamp(pageSize, 1, 1000)]
    entries, without a range, that skips as many commits as the view model
    has cached for the repository and names the ids of the view model's
    filter, each once. *)
Theorem view_request_as_log (scmHistory : SCMHistoryViewModel.ScmHistory)
    (host : SCMHistoryViewModel.Host) (vm : SCMHistoryViewModel.ViewModel)
    (git : Provider) (request : SCMHistoryViewModel.ProviderCall) (o : LogOptions) :
  request ∈ (SCMHistoryViewModel.getHistoryItems scmHistory host vm).2 ->
  o ∈ logCalls
        (provideHistoryItems git (SCMHistoryViewModel.call_options request)).1 ->
  log_maxEntries o = Some (clamp (SCMHistoryViewModel.pageSize host) 1 1000)
  ∧ log_range o = None
  ∧ log_skip o
    = Some (Z.of_nat
              (length (SCMHistoryViewModel.cachedItems vm
                         (SCMHistoryViewModel.call_repository request))))
  ∧ NoDup (log_refNames o)
  ∧ ∀ id, id ∈ log_refNames o
          ↔ id ∈ SCMHistoryViewModel.historyItemGroupFilter host vm.
Proof.
  intros Hrequest Ho.
  destruct (SCMHistoryViewModel.getHistoryItems scmHistory host vm)
    as [[r vm'] calls] eqn:Hcall.
  apply ViewModelMore.getHistoryItems_outcomes in Hcall
    as [(_ & -> & _) | (repo & provider & group & _ & _ & _ & -> & _)];
    [by apply elem_of_nil in Hrequest|].
  cbn [snd] in Hrequest. apply list_elem_of_singleton in Hrequest as ->.
  cbn [SCMHistoryViewModel.call_options SCMHistoryViewModel.call_repository] in *.
  pose proof Ho as (ids & lo & _ & Hstage & Hshape)%logCall_shape.
  apply limitStage_options in Hstage as (_ & Hnoskip & _ & Hmax & Hrange).
  cbn in Hshape, Hmax, Hrange.
  assert (log_maxEntries o
          = Some (clamp (SCMHistoryViewModel.pageSize host) 1 1000)
          ∧ log_range o = None
          ∧ log_skip o
            = Some (Z.of_nat
                      (length (SCMHistoryViewModel.cachedItems vm repo))))
    as (Hmax' & Hrange' & Hskip) by (by rewrite Hshape).
  clear Hmax Hrange. rename Hmax' into Hmax, Hrange' into Hrange.
  assert (log_refNames o
          = Set_new (SCMHistoryViewModel.historyItemGroupFilter host vm))
    as Hnames.
  { destruct (currentHistoryItemGroup git) as [g|] eqn:Hg;
      [|rewrite GitFacts.provideHistoryItems_no_group in Ho by (by left);
        by apply elem_of_nil in Ho].
    rewrite (GitFacts.provideHistoryItems_logCalls git
               (SCMHistoryViewModel.pageRequest host vm
                  (SCMHistoryViewModel.cachedItems vm repo))
               g (SCMHistoryViewModel.historyItemGroupFilter host vm)
               Hg eq_refl) in Ho.
    destruct (GitFacts.provideHistoryItems_try_logCalls git
                (SCMHistoryViewModel.pageRequest host vm
                   (SCMHistoryViewModel.cachedItems vm repo))
                (Array_from_Set
                   (Set_new (SCMHistoryViewModel.historyItemGroupFilter host vm))))
      as [Hnone | (o' & Hone & Hnames)].
    - rewrite Hnone in Ho. by apply elem_of_nil in Ho.
    - rewrite Hone in Ho. by apply list_elem_of_singleton in Ho as ->. }
  rewrite Hnames.
  split_and!; [done..| apply Set_new_NoDup | intros id; apply Set_new_elem_of].
Qed.

End GitMore.

(** ** The history tree *)

Module TreeFacts.

Import SCMHistoryViewModel SCMHistoryTree.

Lemma historyRows_app rows children :
  historyRows ((HistoryItemRow <$> rows) ++ children) = rows ++ historyRows children.
Proof.
  unfold historyRows. rewrite omap_app. f_equal.
  induction rows as [|row rows IH]; cbn; [done | by rewrite IH].
Qed.

Lemma append_cons c s t : String c s +:+ t = String c (s +:+ t).
Proof. reflexivity. Qed.

Lemma append_nil t : EmptyString +:+ t = t.
Proof. reflexivity. Qed.

Lemma append_inj_l p s1 s2 : p +:+ s1 = p +:+ s2 -> s1 = s2.
Proof.
  induction p as [|c p IH]; rewrite ?append_nil, ?append_cons; [done|].
  intros [= H]. by apply IH.
Qed.

Lemma slashFree_cons c s :
  slashFree (String c s) = true -> c ≠ slash ∧ slashFree s = true.
Proof.
  cbn. intros [Hc Hs]%andb_true_iff. split; [|done].
  intros ->. by rewrite Ascii.eqb_refl in Hc.
Qed.

(** Two strings without "/" that are followed by "/" and agree with what
    follows, agree themselves. *)
Lemma slashFree_split a b x y :
  slashFree a = true -> slashFree b = true ->
  a +:+ String slash x = b +:+ String slash y ->
  a = b ∧ x = y.
Proof.
  revert b. induction a as [|c a IH]; intros [|d b] Ha Hb;
    rewrite ?append_nil, ?append_cons.
  - by intros [= ->].
  - intros [= <- _]. by apply slashFree_cons in Hb as [? _].
  - intros [= -> _]. by apply slashFree_cons in Ha as [? _].
  - intros [= -> Heq].
    apply slashFree_cons in Ha as [_ Ha]. apply slashFree_cons in Hb as [_ Hb].
    destruct (IH b Ha Hb Heq) as [-> ->]. done.
Qed.

Section DataSource.

Context (scmHistory : ScmHistory).

Lemma getHistoryItems_no_repository host vm :
  repository host = None ->
  getHistoryItems scmHistory host vm = (Resolved [], vm, []).
Proof.
  intros Hnone. unfold getHistoryItems, getHistoryItems_begin. by rewrite Hnone.
Qed.

(** X21: the children [getChildren] gives for the view model are the tree
    elements of [getHistoryItems], in order, followed by at most one
    load-more row. A load-more row is the last child, belongs to the active
    repository and carries the output swimlanes of the last history item,
    which are not empty; and whenever the last history item has output
    swimlanes the load-more row is there. An empty history has no children. *)
Theorem getChildren_rows host vm children vm' calls :
  getChildren scmHistory host (inl vm) = (Resolved children, vm', calls) ->
  ∃ historyItems,
    (getHistoryItems scmHistory host vm).1.1 = Resolved historyItems
    ∧ historyRows children = historyItems
    ∧ (historyItems = [] -> children = [])
    ∧ (∀ i row,
         children !! i = Some (LoadMoreRow row) ->
         i = length historyItems
         ∧ length children = S i
         ∧ graphColumns row ≠ []
         ∧ repository host = Some (loadMore_repository row)
         ∧ ∃ lastItem,
             last historyItems = Some lastItem
             ∧ graphColumns row = outputSwimlanes (historyItemViewModel lastItem))
    ∧ (∀ lastItem,
         last historyItems = Some lastItem ->
         outputSwimlanes (historyItemViewModel lastItem) ≠ [] ->
         ∃ row, last children = Some (LoadMoreRow row)).
Proof.
  unfold getChildren.
  destruct (getHistoryItems scmHistory host vm) as [[[historyItems|err] vm1] calls1]
    eqn:Hcall; [|by intros [=]].
  intros [= <- _ _]. exists historyItems. cbn [fst].
  assert (∀ lastItem, last historyItems = Some lastItem ->
            ∃ repo, repository host = Some repo) as Hrepo.
  { intros lastItem Hlast. destruct (repository host) as [repo|] eqn:Hnone;
      [by eauto|].
    rewrite getHistoryItems_no_repository in Hcall by done.
    injection Hcall as <- _ _. done. }
  split_and!; [done | | | |].
  - rewrite historyRows_app. unfold loadMoreElement.
    destruct (repository host), (last historyItems) as [lastItem|];
      try by rewrite app_nil_r.
    destruct (outputSwimlanes (historyItemViewModel lastItem));
      by rewrite app_nil_r.
  - intros ->. unfold loadMoreElement. by destruct (repository host).
  - intros i row Hrow.
    destruct (decide (i < length (HistoryItemRow <$> historyItems))) as [Hlt|Hge].
    { rewrite lookup_app_l in Hrow by done.
      rewrite list_lookup_fmap in Hrow.
      by destruct (historyItems !! i). }
    rewrite lookup_app_r in Hrow by lia. rewrite length_fmap in Hrow, Hge.
    rewrite length_app, length_fmap.
    unfold loadMoreElement in *.
    destruct (repository host) as [repo|]; [|by rewrite lookup_nil in Hrow].
    destruct (last historyItems) as [lastItem|];
      [|by rewrite lookup_nil in Hrow].
    destruct (outputSwimlanes (historyItemViewModel lastItem)) as [|column columns]
      eqn:Hlanes; [by rewrite lookup_nil in Hrow|].
    destruct (i - length historyItems) as [|n] eqn:Hi; [|done].
    cbn in Hrow. injection Hrow as <-. cbn.
    split_and!; [lia | lia | done | done | by eauto].
  - intros lastItem Hlast Hlanes.
    destruct (Hrepo lastItem Hlast) as [repo Hsome].
    unfold loadMoreElement. rewrite Hsome, Hlast.
    destruct (outputSwimlanes (historyItemViewModel lastItem)) as [|column columns];
      [done|].
    eexists. by rewrite last_snoc.
Qed.

End DataSource.

Section Tree.

Context (providerOf : ISCMRepository -> ISCMProvider)
        (pageOnScroll : option bool)
        (executeCommand : MultiDiffEditorInput -> Settled unit)
        (localize : string -> list string -> string)
        (SWIMLANE_WIDTH : Z).

(** X22: the identity provider never gives a repository, a history item row
    and a load-more row the same id. *)
Theorem getId_kinds repo element row child :
  getId providerOf (RepositoryElement repo) ≠ getId providerOf (RowElement child)
  ∧ getId providerOf (RowElement (HistoryItemRow element))
    ≠ getId providerOf (RowElement (LoadMoreRow row)).
Proof.
  split.
  - destruct child; unfold getId; intros Heq;
      rewrite !append_cons in Heq; congruence.
  - unfold getId. intros Heq. rewrite !append_cons in Heq. congruence.
Qed.

(** X23: for history item rows of one repository whose history item ids have
    no "/", the ids the identity provider gives are equal exactly when the
    rows show history items with the same id and the same list of parents
    joined by ",". *)
Theorem getId_history_rows e1 e2 :
  element_repository e1 = element_repository e2 ->
  slashFree (item_id (historyItem (historyItemViewModel e1))) = true ->
  slashFree (item_id (historyItem (historyItemViewModel e2))) = true ->
  getId providerOf (RowElement (HistoryItemRow e1))
  = getId providerOf (RowElement (HistoryItemRow e2))
  ↔ item_id (historyItem (historyItemViewModel e1))
    = item_id (historyItem (historyItemViewModel e2))
    ∧ String.concat "," (item_parentIds (historyItem (historyItemViewModel e1)))
      = String.concat "," (item_parentIds (historyItem (historyItemViewModel e2))).
Proof.
  intros Hrepo Hfree1 Hfree2. unfold getId. rewrite Hrepo. split.
  - intros Heq. apply (append_inj_l "historyItem:") in Heq.
    apply append_inj_l in Heq. apply (append_inj_l "/") in Heq.
    by apply (slashFree_split _ _ _ _ Hfree1 Hfree2) in Heq.
  - by intros [-> ->].
Qed.

(** X24: for every value of scm.graph.pageOnScroll, exactly one of rendering
    the load-more row and opening it calls [_loadMoreCallback]: rendering
    when the value is [true], opening (which also clears the selection)
    otherwise. *)
Theorem loadMore_trigger_exclusive element loadingMore :
  (_onDidOpen providerOf pageOnScroll executeCommand
     (Some (LoadMoreRow element))).2 = Resolved tt
  ∧ (pageOnScroll = Some true ->
     (_onDidOpen providerOf pageOnScroll executeCommand
        (Some (LoadMoreRow element))).1 = []
     ∧ RenderInvokesLoadMoreCallback (loadMore_repository element)
       ∈ renderElement pageOnScroll localize SWIMLANE_WIDTH element loadingMore)
  ∧ (pageOnScroll ≠ Some true ->
     (_onDidOpen providerOf pageOnScroll executeCommand
        (Some (LoadMoreRow element))).1
     = [InvokeLoadMoreCallback (loadMore_repository element); TreeSetSelection []]
     ∧ ∀ repo,
         RenderInvokesLoadMoreCallback repo
         ∉ renderElement pageOnScroll localize SWIMLANE_WIDTH element loadingMore).
Proof.
  unfold _onDidOpen, renderElement, pageOnScroll_is_true.
  split_and!.
  - by destruct pageOnScroll as [[|]|].
  - intros ->. split; [done|].
    apply elem_of_app. right. right. by left.
  - intros Hnot. destruct pageOnScroll as [[|]|]; [done| |]; (split; [done|]);
      intros repo Hin; repeat (apply elem_of_cons in Hin as [[=]|Hin]);
      by apply elem_of_nil in Hin.
Qed.

(** X25: the action "View Changes" opens the multi-diff editor only with a
    history provider that returns a change list that is not empty, for the
    changes between the first parent of the last selected history item and
    the first selected one; with more than one history item selected, only
    when the common ancestor the provider resolves for the first and the last
    one is one of the two. *)
Theorem viewChanges_opens provider historyItems input :
  ExecuteOpenMultiDiffEditor input ∈ (viewChanges localize provider historyItems).1 ->
  ∃ p hp first lastItem,
    provider = Some p
    ∧ provider_historyProvider p = Some hp
    ∧ head historyItems = Some first
    ∧ last historyItems = Some lastItem
    ∧ resources input ≠ []
    ∧ provideHistoryItemChanges hp (item_id first) (head (item_parentIds lastItem))
      = Resolved (Some (resources input))
    ∧ multiDiffSourceUri_path input
      = sourcePath p +:+ "/" +:+ interpolate (head (item_parentIds lastItem))
        +:+ ".." +:+ item_id first
    ∧ (1 < length historyItems ->
       ∃ ancestor,
         resolveHistoryItemGroupCommonAncestor hp [item_id first; item_id lastItem]
           = Resolved (Some ancestor)
         ∧ (ancestor = item_id first ∨ ancestor = item_id lastItem)).
Proof.
  unfold viewChanges.
  destruct provider as [p|]; [|by intros ?%elem_of_nil].
  destruct historyItems as [|first rest]; [by intros ?%elem_of_nil|].
  destruct (last (first :: rest)) as [lastItem|] eqn:Hlast;
    [|by intros ?%elem_of_nil].
  unfold askChanges, Task.bind, Task.call, Task.ret, Task.emit.
  destruct (provider_historyProvider p) as [hp|] eqn:Hhp;
    [|destruct (bool_decide _); cbn; by intros ?%elem_of_nil].
  destruct (bool_decide (1 < length (first :: rest))) eqn:Hmulti;
    [destruct (resolveHistoryItemGroupCommonAncestor hp
                 [item_id first; item_id lastItem]) as [ancestor|err] eqn:Hancestor;
     [destruct (truthy ancestor
                && (bool_decide (ancestor = Some (item_id first))
                    || bool_decide (ancestor = Some (item_id lastItem))))
        eqn:Hproceed|]|];
    try destruct (provideHistoryItemChanges hp (item_id first)
                    (head (item_parentIds lastItem)))
      as [[[|change changes]|]|err] eqn:Hchanges;
    cbn; intros Hin;
    repeat (apply elem_of_cons in Hin as [Hin|Hin]; try done);
    try (by apply elem_of_nil in Hin).
  - injection Hin as ->. exists p, hp, first, lastItem. cbn.
    split_and!; try done. intros _.
    apply andb_true_iff in Hproceed as [Htruthy Hone].
    destruct ancestor as [ancestor|]; [|done]. exists ancestor.
    split; [done|].
    apply orb_true_iff in Hone as [H|H]; apply bool_decide_eq_true in H;
      injection H as ->; by eauto.
  - injection Hin as ->. exists p, hp, first, lastItem. cbn.
    split_and!; try done. intros Hlen.
    apply bool_decide_eq_false in Hmulti. done.
Qed.

(** X26: opening a history item row asks the provider for the changes against
    the first parent of the history item and opens the multi-diff editor with
    whatever list it returns, the empty list included; "View Changes" on the
    same history item opens nothing for the empty list. Without a history
    provider, or when the provider returns [undefined], opening does nothing
    more and resolves. *)
Theorem onDidOpen_row element :
  let item := historyItem (historyItemViewModel element) in
  let parent := head (item_parentIds item) in
  let provider := providerOf (element_repository element) in
  (∀ hp changes,
     provider_historyProvider provider = Some hp ->
     provideHistoryItemChanges hp (item_id item) parent = Resolved (Some changes) ->
     _onDidOpen providerOf pageOnScroll executeCommand (Some (HistoryItemRow element))
     = ([CallProvideHistoryItemChanges (item_id item) parent;
         ExecuteOpenMultiDiffEditor
           (multiDiffInput provider (singleTitle item) parent item changes)],
        executeCommand
          (multiDiffInput provider (singleTitle item) parent item changes))
     ∧ (changes = [] ->
        ∀ input,
          ExecuteOpenMultiDiffEditor input
          ∉ (viewChanges localize (Some provider) [item]).1))
  ∧ (provider_historyProvider provider = None
     ∨ (∃ hp, provider_historyProvider provider = Some hp
              ∧ provideHistoryItemChanges hp (item_id item) parent = Resolved None) ->
     (_onDidOpen providerOf pageOnScroll executeCommand
        (Some (HistoryItemRow element))).2 = Resolved tt
     ∧ ∀ input,
         ExecuteOpenMultiDiffEditor input
         ∉ (_onDidOpen providerOf pageOnScroll executeCommand
              (Some (HistoryItemRow element))).1).
Proof.
  cbv zeta. unfold _onDidOpen, viewChanges, askChanges.
  unfold Task.bind, Task.call, Task.ret, Task.emit. split.
  - intros hp changes -> Hchanges. rewrite Hchanges. split.
    + by destruct (executeCommand _).
    + intros -> input. cbn [last head length].
      rewrite bool_decide_eq_false_2 by (cbn; lia).
      rewrite Hchanges. cbn. intros Hin.
      apply elem_of_cons in Hin as [[=]|Hin]. by apply elem_of_nil in Hin.
  - intros [-> | (hp & -> & ->)]; cbn; (split; [done|]); intros input Hin.
    + by apply elem_of_nil in Hin.
    + apply elem_of_cons in Hin as [[=]|Hin]. by apply elem_of_nil in Hin.
Qed.

End Tree.

End TreeFacts.

(** ** The further properties on concrete inputs *)

Module Scenario2Facts.

Import SCMHistoryViewModel Scenario Scenario2.

Lemma cache_frame_witness :
  _state (setLoadMore 1 true cachedViewModel) !! 2 = _state cachedViewModel !! 2.
Proof.
  apply (proj2 (ViewModelMore.cache_frame scmHistory host cachedViewModel 1 2 true)).
  lia.
Defined.

Lemma getHistoryItems_group_snapshot_witness :
  ∃ st',
    _state (getHistoryItems scmHistory host cachedViewModel).1.2 !! 1 = Some st'
    ∧ currentHistoryItemGroup st' = currentHistoryItemGroup cached.
Proof.
  apply (ViewModelMore.getHistoryItems_group_snapshot scmHistory host
           cachedViewModel 1 cached).
  reflexivity.
Defined.

Lemma getHistoryItems_rejected_retries_witness :
  new_ViewModel = new_ViewModel
  ∧ length [call_of (suspend (hostOf (Some offlineProvider)) new_ViewModel 1
                       offlineProvider main [])] = 1
  ∧ (getHistoryItems scmHistory (hostOf (Some offlineProvider)) new_ViewModel).2
    = [call_of (suspend (hostOf (Some offlineProvider)) new_ViewModel 1
                  offlineProvider main [])].
Proof.
  apply (ViewModelMore.getHistoryItems_rejected_retries scmHistory
           (hostOf (Some offlineProvider)) new_ViewModel "offline").
  reflexivity.
Defined.

Lemma historyItemGroupFilter_auto_witness :
  historyItemGroupFilter host new_ViewModel = ["c1"; "c3"; "c3"]
  ∧ 1 ≤ length (historyItemGroupFilter host new_ViewModel) ≤ 3
  ∧ length (historyItemGroupFilter host new_ViewModel) = 3.
Proof.
  apply (ViewModelMore.historyItemGroupFilter_auto scmHistory host new_ViewModel).
  apply reachable_new.
Defined.

Lemma setLoadMore_marks_only_witness :
  setLoadMore 1 true new_ViewModel = new_ViewModel.
Proof.
  apply (proj1 (proj2 (proj2
           (ViewModelMore.setLoadMore_marks_only 1 true false new_ViewModel 1)))).
  reflexivity.
Defined.

Lemma loadMore_stuck_after_rejection_witness :
  let p :=
    SCMHistoryViewPane.run scmHistory host
      [SCMHistoryViewPane.InvokeLoadMore 1;
       SCMHistoryViewPane.SequencerStartsNext;
       SCMHistoryViewPane.TreeAsksChildren;
       SCMHistoryViewPane.ProviderRejects "offline"]
      (SCMHistoryViewPane.idle cachedViewModel) in
  let p' :=
    SCMHistoryViewPane.run scmHistory host
      [SCMHistoryViewPane.InvokeLoadMore 1;
       SCMHistoryViewPane.SequencerStartsNext;
       SCMHistoryViewPane.TreeAsksChildren]
      p in
  SCMHistoryViewPane.running p' = None
  ∧ SCMHistoryViewPane._repositoryLoadMore p' = true
  ∧ SCMHistoryViewPane.providerCalls p' = SCMHistoryViewPane.providerCalls p
  ∧ SCMHistoryViewPane._treeViewModel p' = SCMHistoryViewPane._treeViewModel p
  ∧ ∃ returned,
      SCMHistoryViewPane.outcomes p'
      = SCMHistoryViewPane.outcomes p
        ++ (SCMHistoryViewPane.ReturnedAtGuard <$> returned).
Proof.
  apply (proj2 (proj2
           (PaneMore.loadMore_stuck_after_rejection scmHistory host
              cachedViewModel
              [SCMHistoryViewPane.InvokeLoadMore 1;
               SCMHistoryViewPane.SequencerStartsNext;
               SCMHistoryViewPane.TreeAsksChildren;
               SCMHistoryViewPane.ProviderRejects "offline"]
              [SCMHistoryViewPane.InvokeLoadMore 1;
               SCMHistoryViewPane.SequencerStartsNext;
               SCMHistoryViewPane.TreeAsksChildren]))).
  exists 1, "offline". vm_compute. apply list_elem_of_here.
Defined.

Lemma onDidRunGitStatus_without_branch_witness :
  (GitStatus.onDidRunGitStatus statusDetached None).1.2 = Resolved tt.
Proof.
  refine (proj1 (proj2
            (GitStatusFacts.onDidRunGitStatus_without_branch statusDetached None _))).
  intros head [= <-]. right. reflexivity.
Defined.

Lemma onDidRunGitStatus_rejects_witness :
  GitStatus.onDidRunGitStatus statusBroken (Some main)
  = (([GitStatus.CallGetBranchBase "main"], Rejected "fatal: no branch base"),
     Some main).
Proof.
  apply (GitStatusFacts.onDidRunGitStatus_rejects statusBroken (Some main)
           headMain "main" "fatal: no branch base"); reflexivity.
Defined.

Lemma onDidRunGitStatus_base_witness :
  ∃ name mergeBase,
    GitStatus.branch_type headMain = GitStatus.Head
    ∧ GitStatus.branch_name headMain = Some name
    ∧ GitStatus.getBranchBase statusMain name = Resolved (Some mergeBase)
    ∧ (GitStatus.branch_remote mergeBase
       ≠ (GitStatus.upstream_remote <$> GitStatus.branch_upstream headMain)
       ∨ GitStatus.branch_name mergeBase
         ≠ (GitStatus.upstream_name <$> GitStatus.branch_upstream headMain))
    ∧ ref_name {| ref_id := "refs/remotes/upstream/main";
                  ref_name := "upstream/main"; ref_revision := Some "c0" |}
      = interpolate (GitStatus.branch_remote mergeBase) +:+ "/"
        +:+ interpolate (GitStatus.branch_name mergeBase)
    ∧ ref_revision {| ref_id := "refs/remotes/upstream/main";
                      ref_name := "upstream/main"; ref_revision := Some "c0" |}
      = GitStatus.branch_commit mergeBase.
Proof.
  apply (GitStatusFacts.onDidRunGitStatus_base statusMain None headMain
           (GitStatus.groupOf headMain (Some upstreamMain))); reflexivity.
Defined.

Lemma provideHistoryItemChanges_decorated_witness :
  is_Some (GitChanges.provideFileDecoration (changesApi (Resolved twoChanges))
             (GitChanges.provideHistoryItemChanges
                (changesApi (Resolved twoChanges)) ∅ "c1" (Some "c2")).2
             "file:///a.txt?ref=c1").
Proof.
  apply (proj1 (GitChangesFacts.provideHistoryItemChanges_decorated
                  (changesApi (Resolved twoChanges)) ∅ "c1" (Some "c2")
                  returnedChanges eq_refl)
           {| GitChanges.uri := "file:///a.txt?ref=c1";
              GitChanges.originalUri := "git:file:///a.txt?c2";
              GitChanges.modifiedUri := "git:file:///a.txt?c1";
              GitChanges.renameUri := None |}).
  vm_compute. apply list_elem_of_here.
Defined.

Lemma provideHistoryItemChanges_rejects_witness :
  (GitChanges.provideHistoryItemChanges (changesApi (Rejected "fatal: bad tree"))
     ∅ "c1" (Some "c2")).2 = ∅.
Proof.
  apply (proj1 (GitChangesFacts.provideHistoryItemChanges_rejects
                  (changesApi (Rejected "fatal: bad tree")) ∅ "c1" (Some "c2")
                  "fatal: bad tree" eq_refl)).
Defined.

Lemma provideHistoryItemChanges_keeps_decorations_witness :
  is_Some (GitChanges.provideFileDecoration (changesApi (Resolved twoChanges))
             (GitChanges.provideHistoryItemChanges (changesApi (Resolved twoChanges))
                {[ "file:///z.txt" := {| GitChanges.badge := "A";
                                         GitChanges.tooltip := "Added";
                                         GitChanges.color := "green" |} ]}
                "c1" (Some "c2")).2
             "file:///z.txt").
Proof.
  apply (proj1 (GitChangesFacts.provideHistoryItemChanges_keeps_decorations
                  (changesApi (Resolved twoChanges)) _ "c1" (Some "c2")
                  "file:///z.txt")).
  vm_compute. by eexists.
Defined.

Lemma provideHistoryItemChanges_decoration_witness :
  ∃ parent changes,
    GitChanges.diffTrees (changesApi (Resolved twoChanges)) parent "c1"
      = Resolved changes
    ∧ length returnedChanges = length changes
    ∧ ∀ i c change,
        returnedChanges !! i = Some c -> changes !! i = Some change ->
        GitChanges.provideFileDecoration (changesApi (Resolved twoChanges))
          (GitChanges.provideHistoryItemChanges
             (changesApi (Resolved twoChanges)) ∅ "c1" (Some "c2")).2
          (GitChanges.uri c)
        = Some {| GitChanges.badge :=
                    GitChanges.getStatusLetter (changesApi (Resolved twoChanges))
                      (GitChanges.change_status change);
                  GitChanges.tooltip :=
                    GitChanges.getStatusText (changesApi (Resolved twoChanges))
                      (GitChanges.change_status change);
                  GitChanges.color :=
                    GitChanges.getStatusColor (changesApi (Resolved twoChanges))
                      (GitChanges.change_status change) |}.
Proof.
  apply (GitChangesFacts.provideHistoryItemChanges_decoration
           (changesApi (Resolved twoChanges)) ∅ "c1" (Some "c2")
           returnedChanges eq_refl).
  vm_compute. apply NoDup_cons. split.
  - intros Hin. apply list_elem_of_singleton in Hin. discriminate Hin.
  - apply NoDup_singleton.
Defined.

Lemma resolveHistoryItemLabels_sound_witness :
  ∃ refName key icon,
    refName ∈ GitHistoryProvider.refNames gitCommit
    ∧ (key, icon) ∈ [("HEAD -> refs/heads/", "target");
                      ("tag: refs/tags/", "tag");
                      ("refs/heads/", "git-branch");
                      ("refs/remotes/", "cloud")]
    ∧ key +:+ label_title {| label_title := "main"; label_icon := Some "target" |}
      = refName
    ∧ label_icon {| label_title := "main"; label_icon := Some "target" |}
      = Some icon.
Proof.
  apply (proj2 (GitMore.resolveHistoryItemLabels_sound gitCommit)).
  vm_compute. apply list_elem_of_here.
Defined.

Lemma provideHistoryItems_items_witness :
  (GitHistoryProvider.provideHistoryItems workingGit firstRequest).2
  = Resolved [GitHistoryProvider.toHistoryItem (GitHistoryProvider.repo workingGit)
                gitCommit].
Proof.
  apply (proj1 (GitMore.provideHistoryItems_items workingGit firstRequest main
                  ["c1"; "c3"; "c3"] _ eq_refl eq_refl eq_refl)).
Defined.

Lemma provideHistoryItems_logOptions_witness :
  ∃ o,
    o ∈ GitHistoryProvider.logCalls
          (GitHistoryProvider.provideHistoryItems workingGit firstRequest).1
    ∧ GitHistoryProvider.log_silent o = Some true
    ∧ GitHistoryProvider.log_maxEntries o = Some 2%Z.
Proof.
  eexists. split; [vm_compute; apply list_elem_of_here|].
  split.
  - apply (GitMore.provideHistoryItems_logOptions workingGit firstRequest).
    vm_compute. apply list_elem_of_here.
  - reflexivity.
Defined.

Lemma resolveHistoryItemGroupCommonAncestor_calls_witness :
  GitCalls.repositoryCalls
    (GitHistoryProvider.resolveHistoryItemGroupCommonAncestor workingGit
       ["refs/heads/main"]).1
  = [GitHistoryProvider.CallGetMergeBase "refs/heads/main"
       "refs/remotes/origin/main" []]
  ∧ GitCalls.repositoryCalls
      (GitHistoryProvider.resolveHistoryItemGroupCommonAncestor workingGit
         ["refs/heads/main"; "refs/heads/dev"; "refs/tags/v1"]).1
    = [GitHistoryProvider.CallGetMergeBase "refs/heads/main" "refs/heads/dev"
         ["refs/tags/v1"]]
  ∧ GitHistoryProvider.resolveHistoryItemGroupCommonAncestor workingGit
      ["refs/heads/dev"]
    = ([], Resolved None).
Proof.
  split_and!.
  - apply (proj1 (proj2 (proj2
             (GitMore.resolveHistoryItemGroupCommonAncestor_calls workingGit
                ["refs/heads/main"])))
             main originMain); reflexivity.
  - apply (proj2 (proj2 (proj2
             (GitMore.resolveHistoryItemGroupCommonAncestor_calls workingGit
                ["refs/heads/main"; "refs/heads/dev"; "refs/tags/v1"])))
             "refs/heads/main" "refs/heads/dev" ["refs/tags/v1"]).
    reflexivity.
  - apply (proj1 (proj2
             (GitMore.resolveHistoryItemGroupCommonAncestor_calls workingGit
                ["refs/heads/dev"]))).
    right. exists "refs/heads/dev". split; [reflexivity|].
    intros Heq. vm_compute in Heq. discriminate Heq.
Defined.

Lemma view_request_as_log_witness :
  ∃ o,
    GitHistoryProvider.log_maxEntries o
      = Some (clamp (pageSize host) 1 1000)
    ∧ GitHistoryProvider.log_range o = None
    ∧ GitHistoryProvider.log_skip o
      = Some (Z.of_nat (length (cachedItems new_ViewModel 1)))
    ∧ NoDup (GitHistoryProvider.log_refNames o)
    ∧ ∀ id, id ∈ GitHistoryProvider.log_refNames o
            ↔ id ∈ historyItemGroupFilter host new_ViewModel.
Proof.
  eexists.
  apply (GitMore.view_request_as_log scmHistory host new_ViewModel workingGit
           {| call_repository := 1; call_options := firstRequest |}).
  - vm_compute. apply list_elem_of_here.
  - vm_compute. apply list_elem_of_here.
Defined.

Lemma getChildren_rows_witness :
  ∃ historyItems,
    (getHistoryItems laneHistory host new_ViewModel).1.1 = Resolved historyItems
    ∧ SCMHistoryTree.historyRows
        (resolved (SCMHistoryTree.getChildren laneHistory host
                     (inl new_ViewModel)).1.1)
      = historyItems
    ∧ (historyItems = [] ->
       resolved (SCMHistoryTree.getChildren laneHistory host
                   (inl new_ViewModel)).1.1 = [])
    ∧ (∀ i row,
         resolved (SCMHistoryTree.getChildren laneHistory host
                     (inl new_ViewModel)).1.1 !! i
         = Some (SCMHistoryTree.LoadMoreRow row) ->
         i = length historyItems
         ∧ length (resolved (SCMHistoryTree.getChildren laneHistory host
                               (inl new_ViewModel)).1.1) = S i
         ∧ SCMHistoryTree.graphColumns row ≠ []
         ∧ repository host = Some (SCMHistoryTree.loadMore_repository row)
         ∧ ∃ lastItem,
             last historyItems = Some lastItem
             ∧ SCMHistoryTree.graphColumns row
               = outputSwimlanes (historyItemViewModel lastItem))
    ∧ (∀ lastItem,
         last historyItems = Some lastItem ->
         outputSwimlanes (historyItemViewModel lastItem) ≠ [] ->
         ∃ row,
           last (resolved (SCMHistoryTree.getChildren laneHistory host
                             (inl new_ViewModel)).1.1)
           = Some (SCMHistoryTree.LoadMoreRow row)).
Proof.
  apply (TreeFacts.getChildren_rows laneHistory host new_ViewModel
           (resolved (SCMHistoryTree.getChildren laneHistory host
                        (inl new_ViewModel)).1.1)
           (SCMHistoryTree.getChildren laneHistory host (inl new_ViewModel)).1.2
           (SCMHistoryTree.getChildren laneHistory host (inl new_ViewModel)).2).
  reflexivity.
Defined.

(** The children of that call: c1, c2 and a load-more row. *)
Example getChildren_example :
  SCMHistoryTree.isLoadMoreRow
  <$> resolved (SCMHistoryTree.getChildren laneHistory host (inl new_ViewModel)).1.1
  = [false; false; true].
Proof. reflexivity. Qed.

Lemma getId_history_rows_witness :
  SCMHistoryTree.getId (fun _ => scmProvider None)
    (SCMHistoryTree.RowElement (SCMHistoryTree.HistoryItemRow (rowOf c1)))
  = SCMHistoryTree.getId (fun _ => scmProvider None)
      (SCMHistoryTree.RowElement (SCMHistoryTree.HistoryItemRow (rowOf c2)))
  ↔ item_id (historyItem (historyItemViewModel (rowOf c1)))
    = item_id (historyItem (historyItemViewModel (rowOf c2)))
    ∧ String.concat "," (item_parentIds (historyItem (historyItemViewModel (rowOf c1))))
      = String.concat "," (item_parentIds (historyItem (historyItemViewModel (rowOf c2)))).
Proof.
  apply (TreeFacts.getId_history_rows (fun _ => scmProvider None)
           (rowOf c1) (rowOf c2)); reflexivity.
Defined.

(** The rows of c1 and c2 have different ids. *)
Example getId_distinct_example :
  SCMHistoryTree.getId (fun _ => scmProvider None)
    (SCMHistoryTree.RowElement (SCMHistoryTree.HistoryItemRow (rowOf c1)))
  ≠ SCMHistoryTree.getId (fun _ => scmProvider None)
      (SCMHistoryTree.RowElement (SCMHistoryTree.HistoryItemRow (rowOf c2))).
Proof. vm_compute. discriminate. Qed.

(** The id of the row of c1. *)
Example getId_example :
  SCMHistoryTree.getId (fun _ => scmProvider None)
    (SCMHistoryTree.RowElement (SCMHistoryTree.HistoryItemRow (rowOf c1)))
  = "historyItem:git0/c1/c2".
Proof. reflexivity. Qed.

Lemma loadMore_trigger_exclusive_witness :
  (SCMHistoryTree._onDidOpen (fun _ => scmProvider None) None
     (fun _ => Resolved tt)
     (Some (SCMHistoryTree.LoadMoreRow loadMoreRow))).1
  = [SCMHistoryTree.InvokeLoadMoreCallback 1; SCMHistoryTree.TreeSetSelection []]
  ∧ ∀ repo,
      SCMHistoryTree.RenderInvokesLoadMoreCallback repo
      ∉ SCMHistoryTree.renderElement None localize 11 loadMoreRow false.
Proof.
  apply (proj2 (proj2
           (TreeFacts.loadMore_trigger_exclusive (fun _ => scmProvider None) None
              (fun _ => Resolved tt) localize 11 loadMoreRow false))).
  discriminate.
Defined.

Lemma viewChanges_opens_witness :
  ∃ p hp first lastItem,
    Some (scmProvider (Some ["file:///a.txt"])) = Some p
    ∧ SCMHistoryTree.provider_historyProvider p = Some hp
    ∧ head [c1; c2; c3] = Some first
    ∧ last [c1; c2; c3] = Some lastItem
    ∧ ["file:///a.txt"] ≠ []
    ∧ SCMHistoryTree.provideHistoryItemChanges hp (item_id first)
        (head (item_parentIds lastItem))
      = Resolved (Some ["file:///a.txt"])
    ∧ "/work/repo/undefined..c1"
      = SCMHistoryTree.sourcePath p +:+ "/"
        +:+ interpolate (head (item_parentIds lastItem)) +:+ ".." +:+ item_id first
    ∧ (1 < length [c1; c2; c3] ->
       ∃ ancestor,
         SCMHistoryTree.resolveHistoryItemGroupCommonAncestor hp
           [item_id first; item_id lastItem] = Resolved (Some ancestor)
         ∧ (ancestor = item_id first ∨ ancestor = item_id lastItem)).
Proof.
  apply (TreeFacts.viewChanges_opens localize
           (Some (scmProvider (Some ["file:///a.txt"]))) [c1; c2; c3]
           {| SCMHistoryTree.title :=
                localize "historyItemChangesEditorTitle" ["c3"; "c1"];
              SCMHistoryTree.multiDiffSourceUri_scheme := "scm-history-item";
              SCMHistoryTree.multiDiffSourceUri_path := "/work/repo/undefined..c1";
              SCMHistoryTree.resources := ["file:///a.txt"] |}).
  vm_compute. apply list_elem_of_further, list_elem_of_further, list_elem_of_here.
Defined.

Lemma onDidOpen_row_witness :
  SCMHistoryTree.ExecuteOpenMultiDiffEditor
    (SCMHistoryTree.multiDiffInput (scmProvider (Some []))
       (SCMHistoryTree.singleTitle c1) (Some "c2") c1 [])
  ∉ (SCMHistoryTree.viewChanges localize (Some (scmProvider (Some []))) [c1]).1.
Proof.
  apply (proj2 (proj1
           (TreeFacts.onDidOpen_row (fun _ => scmProvider (Some [])) None
              (fun _ => Resolved tt) localize (rowOf c1))
           (historyOps (Some [])) [] eq_refl eq_refl)).
  reflexivity.
Defined.

(** Opening the row of c1 with an empty change list opens the editor. *)
Example onDidOpen_example :
  (SCMHistoryTree._onDidOpen (fun _ => scmProvider (Some [])) None
     (fun _ => Resolved tt)
     (Some (SCMHistoryTree.HistoryItemRow (rowOf c1)))).1
  = [SCMHistoryTree.CallProvideHistoryItemChanges "c1" (Some "c2");
     SCMHistoryTree.ExecuteOpenMultiDiffEditor
       {| SCMHistoryTree.title := "c1 - message";
          SCMHistoryTree.multiDiffSourceUri_scheme := "scm-history-item";
          SCMHistoryTree.multiDiffSourceUri_path := "/work/repo/c2..c1";
          SCMHistoryTree.resources := [] |}].
Proof. reflexivity. Qed.

End Scenario2Facts.
